(** * avpipe: session and I/O bridging, verified against the sources

    The development embeds, function by function, the parts of the
    repository that decide the behaviour of the handle registry, the I/O
    callback dispatcher, the session table, the live capture reader, the
    UDP stream adapter and the output naming of the test program:

    - [GoDispatcher]     the cgo dispatcher with the [gHandleNum]/[gFd]
                         counters (the Go file with [InitUrlIOHandler]);
    - [LegacyDispatcher] [avpipe_handler.go], the formula based slot ids,
                         and the test goetx.c makes on them;
    - [CBridge]          [avpipe.c]: the C callbacks and the [tx_table];
    - [TsRecorder]       [live/ts_recorder.go]: [readUdp];
    - [ElvAvpipe]        the test program: [udp_thread_func],
                         [in_read_packet] over the UDP channel, [out_opener].

    Backends (the pluggable input and output handlers, the socket, the
    random generator) are not code of the repository: every call into one
    of them takes the backend's reply as an argument.  Go code that panics
    and C code whose behaviour is undefined have results of their own. *)

From Stdlib Require Import ZArith Lia Sorted Ascii String DecimalString.
From Stdlib Require DecimalFacts DecimalPos.
From Stdlib.Strings Require Import Byte.
From stdpp Require Import base option list gmap strings.

Local Open Scope Z_scope.

(** ** Machine integers *)

Module CInt.

(** Two's complement wrap-around of a 32-bit and of a 64-bit signed
    integer ([C.int], [int32_t], [int64], [C.int64_t]). *)
Definition int32_wrap (z : Z) : Z := (z + 2 ^ 31) `mod` 2 ^ 32 - 2 ^ 31.
Definition int64_wrap (z : Z) : Z := (z + 2 ^ 63) `mod` 2 ^ 64 - 2 ^ 63.

(** Conversion of a signed 32-bit value to [uint32_t]. *)
Definition uint32_of (z : Z) : Z := z `mod` 2 ^ 32.

Definition int32_range (z : Z) : Prop := - 2 ^ 31 <= z < 2 ^ 31.
Definition int64_range (z : Z) : Prop := - 2 ^ 63 <= z < 2 ^ 63.

End CInt.

(** ** Results of Go code: a value, or a run-time panic *)

Inductive go_result (A : Type) : Type :=
| Ret (a : A)
| GoPanic.
Arguments Ret {A} a.
Arguments GoPanic {A}.

(** ** Results of C code: a value, or behaviour the language leaves
    undefined (a write past the end of a buffer, a [memcpy] of a negative
    count) *)

Inductive c_result (A : Type) : Type :=
| Done (a : A)
| Undefined.
Arguments Done {A} a.
Arguments Undefined {A}.

(** ** The cgo dispatcher with the monotonic counters *)

Module GoDispatcher.
Import CInt.

(** Backend objects are opaque to the dispatcher; they are named by a
    number.  A nil interface value is the absence of such a name. *)
Definition InputOpener := nat.
Definition OutputOpener := nat.
Definition InputHandler := nat.
Definition OutputHandler := nat.

(** [type ioHandler struct { input; mutex; outTable }] *)
Record ioHandler : Type := mkIoHandler {
  input : InputHandler;
  outTable : gmap Z OutputHandler
}.

(** The package-level variables.  [gHandlers] maps to pointers: an entry
    may be present and nil, which is what [AVPipeCloseInput] leaves. *)
Record gstate : Type := mkGstate {
  gHandlers : gmap Z (option ioHandler);
  gURLInputOpeners : gmap string InputOpener;
  gURLOutputOpeners : gmap string OutputOpener;
  gHandleNum : Z;
  gFd : Z;
  gInputOpener : option InputOpener;
  gOutputOpener : option OutputOpener
}.

Definition set_gHandlers (f : gmap Z (option ioHandler) -> gmap Z (option ioHandler))
    (st : gstate) : gstate :=
  mkGstate (f (gHandlers st)) (gURLInputOpeners st) (gURLOutputOpeners st)
           (gHandleNum st) (gFd st) (gInputOpener st) (gOutputOpener st).

Definition set_gHandleNum (n : Z) (st : gstate) : gstate :=
  mkGstate (gHandlers st) (gURLInputOpeners st) (gURLOutputOpeners st)
           n (gFd st) (gInputOpener st) (gOutputOpener st).

Definition set_gFd (n : Z) (st : gstate) : gstate :=
  mkGstate (gHandlers st) (gURLInputOpeners st) (gURLOutputOpeners st)
           (gHandleNum st) n (gInputOpener st) (gOutputOpener st).

(** The state of a freshly loaded package with the two global openers
    as [InitIOHandler] sets them. *)
Definition init_state (i : option InputOpener) (o : option OutputOpener) : gstate :=
  mkGstate ∅ ∅ ∅ 0 0 i o.

(** [h := gHandlers[int64(fd)]]: nil for a missing key and for a nil entry. *)
Definition lookup_handler (st : gstate) (fd : Z) : option ioHandler :=
  match gHandlers st !! fd with
  | Some (Some h) => Some h
  | _ => None
  end.

(** [h.getOutTable(fd)] and [h.putOutTable(fd, outHandler)] *)
Definition getOutTable (h : ioHandler) (fd : Z) : option OutputHandler :=
  outTable h !! fd.

Definition putOutTable (h : ioHandler) (fd : Z) (o : OutputHandler) : ioHandler :=
  mkIoHandler (input h) (<[fd := o]> (outTable h)).

(** [NewIOHandler(url, size)].  [reply] is what [urlInputOpener.Open]
    answers: [None] for an error, [Some (input, input.Size())] otherwise.
    The result is the new state, the returned handle and the value
    stored through [size]. *)
Definition NewIOHandler (st : gstate) (url : string)
    (reply : option (InputHandler * Z)) : gstate * Z * option Z :=
  let urlInputOpener :=
    match gURLInputOpeners st !! url with
    | Some o => Some o
    | None => gInputOpener st
    end in
  let urlOutputOpener :=
    match gURLOutputOpeners st !! url with
    | Some o => Some o
    | None => gOutputOpener st
    end in
  match urlInputOpener, urlOutputOpener with
  | Some _, Some _ =>
      let fd := int64_wrap (gHandleNum st + 1) in
      let st1 := set_gHandleNum fd st in
      match reply with
      | None => (st1, -1, None)
      | Some (inp, sz) =>
          (set_gHandlers (fun m => <[fd := Some (mkIoHandler inp ∅)]> m) st1,
           fd, Some (int64_wrap sz))
      end
  | _, _ => (st, -1, None)
  end.

(** [AVPipeReadInput(fd, buf, sz)].  [reply = (n, err)] is what
    [h.input.Read(gobuf)] answers, [err = true] for a non-nil error.
    [make([]byte, sz)] panics for a negative [sz], [&gobuf[0]] for an
    empty buffer. *)
Definition AVPipeReadInput (st : gstate) (fd sz : Z) (reply : Z * bool)
    : go_result Z :=
  match lookup_handler st fd with
  | None => Ret (-1)
  | Some h =>
      if sz <? 0 then GoPanic
      else
        let '(n, err) := reply in
        if (0 <? n) && (sz =? 0) then GoPanic
        else if err then Ret (-1)
        else Ret (int32_wrap n)
  end.

(** [AVPipeSeekInput(fd, offset, whence)] *)
Definition AVPipeSeekInput (st : gstate) (fd offset whence : Z)
    (reply : Z * bool) : go_result Z :=
  match lookup_handler st fd with
  | None => Ret (-1)
  | Some h =>
      let '(n, err) := reply in
      if err then Ret (-1) else Ret (int64_wrap n)
  end.

(** [AVPipeCloseInput(fd)]: the entry is set to nil, never deleted. *)
Definition AVPipeCloseInput (st : gstate) (fd : Z) (err : bool)
    : gstate * Z :=
  match lookup_handler st fd with
  | None => (st, -1)
  | Some h =>
      let st' := set_gHandlers (fun m => <[fd := None]> m) st in
      if err then (st', -1) else (st', 0)
  end.

(** [avp_stat_t] of the C header, as the Go switch statements name it. *)
Inductive avp_stat_t : Type :=
| in_stat_bytes_read
| out_stat_bytes_written
| out_stat_decoding_start_pts
| out_stat_encoding_end_pts
| avp_stat_other.

(** [h.InStat]: only [in_stat_bytes_read] reaches the backend, whose
    answer is [err]. *)
Definition InStat (avp_stat : avp_stat_t) (err : bool) : bool :=
  match avp_stat with
  | in_stat_bytes_read => err
  | _ => false
  end.

(** [AVPipeStatInput(fd, avp_stat, stat_args)] *)
Definition AVPipeStatInput (st : gstate) (fd : Z) (avp_stat : avp_stat_t)
    (err : bool) : go_result Z :=
  match lookup_handler st fd with
  | None => Ret (-1)
  | Some h => if InStat avp_stat err then Ret (-1) else Ret 0
  end.

(** The buffer kinds of the C header that [AVPipeOpenOutput] accepts;
    [avpipe_other_type] stands for every other integer. *)
Inductive avpipe_buftype_t : Type :=
| avpipe_video_init_stream
| avpipe_audio_init_stream
| avpipe_manifest
| avpipe_video_segment
| avpipe_audio_segment
| avpipe_master_m3u
| avpipe_video_m3u
| avpipe_audio_m3u
| avpipe_aes_128_key
| avpipe_mp4_stream
| avpipe_fmp4_stream
| avpipe_mp4_segment
| avpipe_fmp4_segment
| avpipe_other_type.

Inductive AVType : Type :=
| Unknown
| DASHManifest
| DASHVideoInit
| DASHVideoSegment
| DASHAudioInit
| DASHAudioSegment
| HLSMasterM3U
| HLSVideoM3U
| HLSAudioM3U
| AES128Key
| MP4Stream
| FMP4Stream
| MP4Segment
| FMP4Segment.

(** The [switch stream_type] of [AVPipeOpenOutput]; [None] is its
    [default] branch. *)
Definition out_type_of (stream_type : avpipe_buftype_t) : option AVType :=
  match stream_type with
  | avpipe_video_init_stream => Some DASHVideoInit
  | avpipe_audio_init_stream => Some DASHAudioInit
  | avpipe_manifest => Some DASHManifest
  | avpipe_video_segment => Some DASHVideoSegment
  | avpipe_audio_segment => Some DASHAudioSegment
  | avpipe_master_m3u => Some HLSMasterM3U
  | avpipe_video_m3u => Some HLSVideoM3U
  | avpipe_audio_m3u => Some HLSAudioM3U
  | avpipe_aes_128_key => Some AES128Key
  | avpipe_mp4_stream => Some MP4Stream
  | avpipe_fmp4_stream => Some FMP4Stream
  | avpipe_mp4_segment => Some MP4Segment
  | avpipe_fmp4_segment => Some FMP4Segment
  | avpipe_other_type => None
  end.

(** [AVPipeOpenOutput(handler, stream_index, seg_index, stream_type)].
    The slot id is the next value of the global counter [gFd], taken
    before the kind is examined.  [reply] is the answer of
    [gOutputOpener.Open]: [None] for an error. *)
Definition AVPipeOpenOutput (st : gstate) (handler stream_index seg_index : Z)
    (stream_type : avpipe_buftype_t) (reply : option OutputHandler)
    : go_result (gstate * Z) :=
  match lookup_handler st handler with
  | None => Ret (st, -1)
  | Some h =>
      let fd := int64_wrap (gFd st + 1) in
      let st1 := set_gFd fd st in
      match out_type_of stream_type with
      | None => Ret (st1, -1)
      | Some out_type =>
          match gOutputOpener st with
          | None => GoPanic
          | Some _ =>
              match reply with
              | None => Ret (st1, -1)
              | Some outHandler =>
                  Ret (set_gHandlers
                         (fun m => <[handler := Some (putOutTable h fd outHandler)]> m)
                         st1,
                       fd)
              end
          end
      end
  end.

(** [AVPipeWriteOutput(handler, fd, buf, sz)]; [reply = (n, err)] is the
    answer of the slot's [Write].  A nil slot panics, and so does
    [C.GoBytes(unsafe.Pointer(buf), sz)] for a negative [sz]. *)
Definition AVPipeWriteOutput (st : gstate) (handler fd sz : Z)
    (reply : Z * bool) : go_result Z :=
  match lookup_handler st handler with
  | None => Ret (-1)
  | Some h =>
      match getOutTable h fd with
      | None => GoPanic
      | Some outHandler =>
          if sz <? 0 then GoPanic
          else
            let '(n, err) := reply in
            if err then Ret (-1) else Ret (int32_wrap n)
      end
  end.

(** [AVPipeSeekOutput(handler, fd, offset, whence)]: a nil slot is
    dereferenced by [OutSeeker]. *)
Definition AVPipeSeekOutput (st : gstate) (handler fd offset whence : Z)
    (reply : Z * bool) : go_result Z :=
  match lookup_handler st handler with
  | None => Ret (-1)
  | Some h =>
      match getOutTable h fd with
      | None => GoPanic
      | Some outHandler =>
          let '(n, err) := reply in
          if err then Ret (-1) else Ret (int32_wrap n)
      end
  end.

(** [AVPipeCloseOutput(handler, fd)]: the slot stays in [outTable]. *)
Definition AVPipeCloseOutput (st : gstate) (handler fd : Z) (err : bool)
    : go_result Z :=
  match lookup_handler st handler with
  | None => Ret (-1)
  | Some h =>
      match getOutTable h fd with
      | None => GoPanic
      | Some outHandler => if err then Ret (-1) else Ret 0
      end
  end.

(** [h.OutStat]: [true] when it returns an error. *)
Definition OutStat (h : ioHandler) (fd : Z) (avp_stat : avp_stat_t)
    (err : bool) : bool :=
  match getOutTable h fd with
  | None => true
  | Some outHandler =>
      match avp_stat with
      | out_stat_bytes_written
      | out_stat_decoding_start_pts
      | out_stat_encoding_end_pts => err
      | _ => false
      end
  end.

(** [AVPipeStatOutput(handler, fd, avp_stat, stat_args)] *)
Definition AVPipeStatOutput (st : gstate) (handler fd : Z)
    (avp_stat : avp_stat_t) (err : bool) : go_result Z :=
  match lookup_handler st handler with
  | None => Ret (-1)
  | Some h => if OutStat h fd avp_stat err then Ret (-1) else Ret 0
  end.

(** *** Sequences of dispatcher calls

    A call names the exported function, its arguments and the reply of
    the backend it reaches. *)
Inductive call : Type :=
| CallNewIOHandler (url : string) (reply : option (InputHandler * Z))
| CallReadInput (fd sz : Z) (reply : Z * bool)
| CallSeekInput (fd offset whence : Z) (reply : Z * bool)
| CallCloseInput (fd : Z) (err : bool)
| CallStatInput (fd : Z) (avp_stat : avp_stat_t) (err : bool)
| CallOpenOutput (handler stream_index seg_index : Z)
    (stream_type : avpipe_buftype_t) (reply : option OutputHandler)
| CallWriteOutput (handler fd sz : Z) (reply : Z * bool)
| CallSeekOutput (handler fd offset whence : Z) (reply : Z * bool)
| CallCloseOutput (handler fd : Z) (err : bool)
| CallStatOutput (handler fd : Z) (avp_stat : avp_stat_t) (err : bool).

Definition keep (st : gstate) (r : go_result Z) : go_result (gstate * Z) :=
  match r with
  | Ret v => Ret (st, v)
  | GoPanic => GoPanic
  end.

Definition step (st : gstate) (c : call) : go_result (gstate * Z) :=
  match c with
  | CallNewIOHandler url reply =>
      let '(st', h, _) := NewIOHandler st url reply in Ret (st', h)
  | CallReadInput fd sz reply => keep st (AVPipeReadInput st fd sz reply)
  | CallSeekInput fd offset whence reply =>
      keep st (AVPipeSeekInput st fd offset whence reply)
  | CallCloseInput fd err => Ret (AVPipeCloseInput st fd err)
  | CallStatInput fd avp_stat err => keep st (AVPipeStatInput st fd avp_stat err)
  | CallOpenOutput handler stream_index seg_index stream_type reply =>
      AVPipeOpenOutput st handler stream_index seg_index stream_type reply
  | CallWriteOutput handler fd sz reply =>
      keep st (AVPipeWriteOutput st handler fd sz reply)
  | CallSeekOutput handler fd offset whence reply =>
      keep st (AVPipeSeekOutput st handler fd offset whence reply)
  | CallCloseOutput handler fd err => keep st (AVPipeCloseOutput st handler fd err)
  | CallStatOutput handler fd avp_stat err =>
      keep st (AVPipeStatOutput st handler fd avp_stat err)
  end.

(** A run stops at the first panic (the process dies); it yields the
    last state and the values returned so far, oldest first. *)
Fixpoint run (st : gstate) (cs : list call) : gstate * list (call * Z) :=
  match cs with
  | [] => (st, [])
  | c :: cs' =>
      match step st c with
      | GoPanic => (st, [])
      | Ret (st', v) =>
          let '(st'', vs) := run st' cs' in (st'', (c, v) :: vs)
      end
  end.

(** The handles that the successful [NewIOHandler] calls of a run
    returned, and the slot ids its successful [AVPipeOpenOutput] calls
    returned for session [handler]. *)
Definition issued_handle (cv : call * Z) : option Z :=
  match cv with
  | (CallNewIOHandler _ _, v) => if v =? -1 then None else Some v
  | _ => None
  end.


Definition handles_issued (vs : list (call * Z)) : list Z :=
  omap issued_handle vs.


(** *** Predicates on the registry *)

(** The registry invariant: the counter is not negative and every key
    of [gHandlers] was issued by it. *)
Definition registry_inv (st : gstate) : Prop :=
  0 <= gHandleNum st
  /\ forall k, is_Some (gHandlers st !! k) -> 0 < k <= gHandleNum st.

(** Every exported function of the dispatcher answers -1 for [fd],
    whatever its other arguments and whatever a backend would reply. *)
Definition absent_handle_fatal (st : gstate) (fd : Z) : Prop :=
  (forall sz reply, AVPipeReadInput st fd sz reply = Ret (-1))
  /\ (forall offset whence reply,
        AVPipeSeekInput st fd offset whence reply = Ret (-1))
  /\ (forall err, AVPipeCloseInput st fd err = (st, -1))
  /\ (forall avp_stat err, AVPipeStatInput st fd avp_stat err = Ret (-1))
  /\ (forall stream_index seg_index stream_type reply,
        AVPipeOpenOutput st fd stream_index seg_index stream_type reply
        = Ret (st, -1))
  /\ (forall slot sz reply, AVPipeWriteOutput st fd slot sz reply = Ret (-1))
  /\ (forall slot offset whence reply,
        AVPipeSeekOutput st fd slot offset whence reply = Ret (-1))
  /\ (forall slot err, AVPipeCloseOutput st fd slot err = Ret (-1))
  /\ (forall slot avp_stat err,
        AVPipeStatOutput st fd slot avp_stat err = Ret (-1)).

End GoDispatcher.

(** ** avpipe.c: the C callbacks and the session table *)

Module CBridge.
Import CInt.

(** The fields of [ioctx_t] that the callbacks touch.  The header that
    declares the struct is not part of the sources; the counters are kept
    as integers. *)
Record ioctx_t : Type := mkIoctx {
  read_bytes : Z;
  read_pos : Z;
  read_reported : Z;
  written_bytes : Z;
  write_pos : Z
}.

Section Callbacks.

(** [BYTES_READ_REPORT] comes from the same absent header. *)
Variable BYTES_READ_REPORT : Z.

(** [in_read_packet(opaque, buf, buf_size)]; [r] is the value that
    [AVPipeReadInput(fd, buf, buf_size)] returned.  The result is the
    context, whether [in_stat] was called, and the returned count. *)
Definition in_read_packet (c : ioctx_t) (r : Z) : ioctx_t * bool * Z :=
  let c1 :=
    if 0 <? r
    then mkIoctx (read_bytes c + r) (read_pos c + r) (read_reported c)
                 (written_bytes c) (write_pos c)
    else c in
  let report := BYTES_READ_REPORT <? read_bytes c1 - read_reported c1 in
  let c2 :=
    if report
    then mkIoctx (read_bytes c1) (read_pos c1) (read_bytes c1)
                 (written_bytes c1) (write_pos c1)
    else c1 in
  (c2, report, if 0 <? r then r else -1).

(** [out_write_packet(opaque, buf, buf_size)]; [bwritten] is the value
    that [AVPipeWriteOutput(h, fd, buf, buf_size)] returned. *)
Definition out_write_packet (outctx : ioctx_t) (buf_size bwritten : Z)
    : ioctx_t * Z :=
  let outctx' :=
    if 0 <=? bwritten
    then mkIoctx (read_bytes outctx) (read_pos outctx) (read_reported outctx)
                 (written_bytes outctx + bwritten) (write_pos outctx + bwritten)
    else outctx in
  (outctx', buf_size).

(** What the engine sees of a read and of a write: the C callback on
    top of the Go dispatcher. *)
Definition engine_read (st : GoDispatcher.gstate) (c : ioctx_t)
    (fd buf_size : Z) (reply : Z * bool) : go_result Z :=
  match GoDispatcher.AVPipeReadInput st fd buf_size reply with
  | Ret r => Ret (in_read_packet c r).2
  | GoPanic => GoPanic
  end.

Definition engine_write (st : GoDispatcher.gstate) (outctx : ioctx_t)
    (h fd buf_size : Z) (reply : Z * bool) : go_result Z :=
  match GoDispatcher.AVPipeWriteOutput st h fd buf_size reply with
  | Ret bwritten => Ret (out_write_packet outctx buf_size bwritten).2
  | GoPanic => GoPanic
  end.

End Callbacks.

(** *** The session table *)

Definition MAX_TX : nat := 128.

(** The fields of [txctx_t] that [avpipe.c] reads or writes. *)
Record txctx_t : Type := mkTxctx {
  index : Z;
  handle : Z;
  decoder_cancelled : bool;
  encoder_cancelled : bool;
  handlers_bound : bool
}.

Record txctx_entry_t : Type := mkEntry {
  e_handle : Z;
  e_txctx : txctx_t
}.

(** [tx_table[MAX_TX]]: [None] is a NULL slot. *)
Abbreviation tx_table_t := (list (option txctx_entry_t)).

Definition empty_table : tx_table_t := replicate MAX_TX None.

(** [txe->handle = rand(); if (txe->handle < 0) txe->handle = (-1) * txe->handle;]
    on 32-bit integers. *)
Definition rand_handle (r : Z) : Z :=
  let h := int32_wrap r in
  if h <? 0 then int32_wrap (- h) else h.

(** The loop of [tx_table_put]: [n] iterations are left, starting at
    slot [i].  The first NULL slot takes the entry. *)
Fixpoint tx_table_put_loop (n i : nat) (tbl : tx_table_t) (txctx : txctx_t)
    (r : Z) : tx_table_t * txctx_t * option txctx_entry_t :=
  match n with
  | O => (tbl, txctx, None)
  | S n' =>
      match tbl !! i with
      | Some None =>
          let h := rand_handle r in
          let txctx' :=
            mkTxctx (Z.of_nat i) h (decoder_cancelled txctx)
                    (encoder_cancelled txctx) (handlers_bound txctx) in
          let txe := mkEntry h txctx' in
          (<[i := Some txe]> tbl, txctx', Some txe)
      | _ => tx_table_put_loop n' (S i) tbl txctx r
      end
  end.

(** [tx_table_put(txctx)]; [r] is the value [rand()] returns if it is
    called. *)
Definition tx_table_put (tbl : tx_table_t) (txctx : txctx_t) (r : Z)
    : tx_table_t * txctx_t * Z :=
  let txctx0 :=
    mkTxctx (-1) (handle txctx) (decoder_cancelled txctx)
            (encoder_cancelled txctx) (handlers_bound txctx) in
  let '(tbl', txctx', txe) := tx_table_put_loop MAX_TX 0 tbl txctx0 r in
  (tbl', txctx',
   match txe with
   | Some e => e_handle e
   | None => -1
   end).

(** [tx_table_find(handle)] *)
Fixpoint tx_table_find_loop (n i : nat) (tbl : tx_table_t) (h : Z)
    : option txctx_entry_t :=
  match n with
  | O => None
  | S n' =>
      match tbl !! i with
      | Some (Some e) =>
          if e_handle e =? h then Some e
          else tx_table_find_loop n' (S i) tbl h
      | _ => tx_table_find_loop n' (S i) tbl h
      end
  end.

Definition tx_table_find (tbl : tx_table_t) (h : Z) : option txctx_entry_t :=
  tx_table_find_loop MAX_TX 0 tbl h.

(** [tx_table_free(handle)]: the first entry with the handle is released
    when its context points back at the slot; the loop ends there in
    either case. *)
Fixpoint tx_table_free_loop (n i : nat) (tbl : tx_table_t) (h : Z)
    : tx_table_t :=
  match n with
  | O => tbl
  | S n' =>
      match tbl !! i with
      | Some (Some e) =>
          if e_handle e =? h then
            if index (e_txctx e) =? Z.of_nat i
            then <[i := None]> tbl
            else tbl
          else tx_table_free_loop n' (S i) tbl h
      | _ => tx_table_free_loop n' (S i) tbl h
      end
  end.

Definition tx_table_free (tbl : tx_table_t) (h : Z) : tx_table_t :=
  tx_table_free_loop MAX_TX 0 tbl h.

(** [tx_table_cancel(handle)] *)
Fixpoint tx_table_cancel_loop (n i : nat) (tbl : tx_table_t) (h : Z)
    : tx_table_t * Z :=
  match n with
  | O => (tbl, 0)
  | S n' =>
      match tbl !! i with
      | Some (Some e) =>
          if e_handle e =? h then
            if index (e_txctx e) =? Z.of_nat i
            then
              let t := e_txctx e in
              (<[i := Some (mkEntry (e_handle e)
                              (mkTxctx (index t) (handle t) true true
                                       (handlers_bound t)))]> tbl, 0)
            else (tbl, -1)
          else tx_table_cancel_loop n' (S i) tbl h
      | _ => tx_table_cancel_loop n' (S i) tbl h
      end
  end.

Definition tx_cancel (tbl : tx_table_t) (h : Z) : tx_table_t * Z :=
  tx_table_cancel_loop MAX_TX 0 tbl h.

(** What [tx_init] and [tx_run] do to the resources they hold, in the
    order of the calls. *)
Inductive event : Type :=
| EvSetHandlers          (* set_handlers: both handler tables allocated *)
| EvInOpener             (* in_handlers->avpipe_opener *)
| EvAvpipeInit           (* avpipe_init *)
| EvLogTableFull         (* elv_err("tx_init tx_table is full, ...") *)
| EvBindHandlers         (* txctx->in_handlers = ...; ... *)
| EvInCloser             (* in_handlers->avpipe_closer(inctx) *)
| EvAvpipeFini           (* avpipe_fini(&txctx) *)
| EvFreeHandlers         (* free(in_handlers); free(out_handlers) *)
| EvAvpipeTx             (* avpipe_tx *)
| EvLogInvalidHandle.    (* elv_err("tx_run invalid handle=%d") *)

#[global] Instance event_eq_dec : EqDecision event.
Proof. solve_decision. Defined.

(** The code after the label [end_tx_init]. *)
Definition end_tx_init : list event :=
  [EvInCloser; EvAvpipeFini; EvFreeHandlers].

(** The context [avpipe_init] hands back. *)
Definition fresh_txctx : txctx_t := mkTxctx 0 0 false false false.

(** [tx_init(params, filename, debug_frame_level)].  [filename = None]
    is the NULL pointer; [opener_rc] and [init_rc] are the values the
    input opener and [avpipe_init] return, [r] the value of [rand()].
    The local [handle] is a [uint32_t]. *)
Definition tx_init (tbl : tx_table_t) (filename : option string)
    (opener_rc init_rc r : Z) : tx_table_t * list event * Z :=
  match filename with
  | None => (tbl, [], -1)
  | Some EmptyString => (tbl, [], -1)
  | Some _ =>
      if opener_rc <? 0
      then (tbl, [EvSetHandlers; EvInOpener] ++ end_tx_init, -1)
      else if init_rc <? 0
      then (tbl, [EvSetHandlers; EvInOpener; EvAvpipeInit] ++ end_tx_init, -1)
      else
        let '(tbl', txctx, ret) := tx_table_put tbl fresh_txctx r in
        let handle := uint32_of ret in
        if handle <? 0
        then (tbl', [EvSetHandlers; EvInOpener; EvAvpipeInit; EvLogTableFull]
                      ++ end_tx_init, -1)
        else
          let bound :=
            mkTxctx (index txctx) (CBridge.handle txctx)
                    (decoder_cancelled txctx) (encoder_cancelled txctx) true in
          (* the entry that points at txctx, if the put stored one *)
          let tbl'' :=
            if index txctx <? 0 then tbl'
            else
              match tbl' !! Z.to_nat (index txctx) with
              | Some (Some e) =>
                  <[Z.to_nat (index txctx) := Some (mkEntry (e_handle e) bound)]> tbl'
              | _ => tbl'
              end in
          (tbl'', [EvSetHandlers; EvInOpener; EvAvpipeInit; EvBindHandlers],
           int32_wrap handle)
  end.

(** [tx_run(handle)]; [tx_rc] is the value of [avpipe_tx]. *)
Definition tx_run (tbl : tx_table_t) (h : Z) (tx_rc : Z)
    : tx_table_t * list event * Z :=
  match tx_table_find tbl h with
  | None => (tbl, [EvLogInvalidHandle], -1)
  | Some txe =>
      (tx_table_free tbl h, [EvAvpipeTx; EvInCloser; EvAvpipeFini],
       if tx_rc <? 0 then -1 else 0)
  end.

(** *** Predicates on the session table *)

(** Slot [i] holds the live entry [e]. *)
Definition live_at (tbl : tx_table_t) (i : nat) (e : txctx_entry_t) : Prop :=
  tbl !! i = Some (Some e).

(** No entry with handle [h] in the slots [i .. i+n-1]. *)
Definition absent_in (tbl : tx_table_t) (h : Z) (i n : nat) : Prop :=
  forall j e, (i <= j < i + n)%nat -> live_at tbl j e -> e_handle e <> h.

(** No NULL slot among the slots [i .. i+n-1]. *)
Definition no_free_in (tbl : tx_table_t) (i n : nat) : Prop :=
  forall j, (i <= j < i + n)%nat -> tbl !! j <> Some None.

(** The entry [tx_table_put] stores in slot [k] for the draw [r]. *)
Definition stored (k : nat) (txctx : txctx_t) (r : Z) : txctx_entry_t :=
  mkEntry (rand_handle r)
    (mkTxctx (Z.of_nat k) (rand_handle r) (decoder_cancelled txctx)
             (encoder_cancelled txctx) (handlers_bound txctx)).

(** Every live entry's context points back at its slot. *)
Definition slots_consistent (tbl : tx_table_t) : Prop :=
  forall i e, live_at tbl i e -> index (e_txctx e) = Z.of_nat i.

(** At most one live entry carries [h]. *)
Definition handle_unique (tbl : tx_table_t) (h : Z) : Prop :=
  forall i j e e', live_at tbl i e -> live_at tbl j e' ->
    e_handle e = h -> e_handle e' = h -> i = j.

(** No two live entries share a handle. *)
Definition handles_distinct (tbl : tx_table_t) : Prop :=
  forall h, handle_unique tbl h.

(** A table without a NULL slot. *)
Definition table_full (tbl : tx_table_t) : Prop :=
  no_free_in tbl 0 MAX_TX.

End CBridge.

(** ** avpipe_handler.go: slot ids computed from the segment and the stream *)

Module LegacyDispatcher.
Import CInt.

Definition OutputHandler := nat.

(** The five kinds of [C.avpipe_*] this version of [AVPipeOpenOutput]
    accepts. *)
Inductive stream_type_t : Type :=
| avpipe_video_init_stream
| avpipe_audio_init_stream
| avpipe_manifest
| avpipe_video_segment
| avpipe_audio_segment
| avpipe_other_type.

Inductive AVType : Type :=
| DASHManifest
| DASHVideoInit
| DASHVideoSegment
| DASHAudioInit
| DASHAudioSegment.

Definition out_type_of (stream_type : stream_type_t) : option AVType :=
  match stream_type with
  | avpipe_video_init_stream => Some DASHVideoInit
  | avpipe_audio_init_stream => Some DASHAudioInit
  | avpipe_manifest => Some DASHManifest
  | avpipe_video_segment => Some DASHVideoSegment
  | avpipe_audio_segment => Some DASHAudioSegment
  | avpipe_other_type => None
  end.

(** [fd := int(seg_index-1)*2 + int(stream_index)]: the subtraction is
    done on [C.int], the rest on Go's 64-bit [int]. *)
Definition slot_fd (stream_index seg_index : Z) : Z :=
  int64_wrap (int64_wrap (int32_wrap (seg_index - 1) * 2) + stream_index).

(** [AVPipeOpenOutput(handler, stream_index, seg_index, stream_type)].
    [outTable] is the table of [gHandlers[handler]], [None] when that
    handler is nil; [reply] is the answer of [gOutputOpener.Open].  The key
    of the table is [fd], the returned value is [C.int(fd)]. *)
Definition AVPipeOpenOutput (outTable : option (gmap Z OutputHandler))
    (stream_index seg_index : Z) (stream_type : stream_type_t)
    (reply : option OutputHandler)
    : go_result (option (gmap Z OutputHandler) * Z) :=
  match out_type_of stream_type with
  | None => Ret (outTable, -1)
  | Some out_type =>
      match reply with
      | None => Ret (outTable, -1)
      | Some etxOut =>
          let fd := slot_fd stream_index seg_index in
          match outTable with
          | None => GoPanic
          | Some t => Ret (Some (<[fd := etxOut]> t), int32_wrap fd)
          end
      end
  end.




End LegacyDispatcher.

(** ** live/ts_recorder.go: the UDP reader *)

Module TsRecorder.
Import CInt.

(** The errors [readUdp] can return.  All but [EAV_IO_TIMEOUT] come from
    the connection or from the writer and are named by a number. *)
Inductive error : Type :=
| EAV_IO_TIMEOUT
| ErrSetDeadline (id : nat)
| ErrRead (id : nat)
| ErrWrite (id : nat).

(** What [conn.ReadFrom] can fail with: [err.(net.Error).Timeout()] is
    true for the first. *)
Inductive read_error : Type :=
| ReadTimeout
| ReadFailed (id : nat).

(** The replies of the connection and of the writer during one turn of
    the loop: [SetReadDeadline], [ReadFrom] (the bytes received, [n] is
    their number) and [w.Write]. *)
Record turn : Type := mkTurn {
  deadline_err : option nat;
  data : list Byte.byte;
  read_err : option read_error;
  write_bw : Z;
  write_err : option nat
}.

(** How a run of [readUdp] over finitely many turns ends: it returned
    (the deferred function has closed the writer and the connection), or
    it is still in its loop, waiting for the next datagram. *)
Inductive outcome : Type :=
| Returned (err : option error)
| Receiving.

(** The loop of [readUdp]; [bytesRead] is the running counter.  The
    second component lists the buffers passed to [w.Write]. *)
Fixpoint readUdp_loop (bytesRead : Z) (turns : list turn)
    : outcome * list (list Byte.byte) :=
  match turns with
  | [] => (Receiving, [])
  | t :: rest =>
      match deadline_err t with
      | Some e => (Returned (Some (ErrSetDeadline e)), [])
      | None =>
          let n := Z.of_nat (length (data t)) in
          let bytesRead' := int64_wrap (bytesRead + n) in
          match read_err t with
          | Some ReadTimeout =>
              if bytesRead' =? 0
              then readUdp_loop bytesRead' rest   (* waiting for stream start *)
              else (Returned (Some EAV_IO_TIMEOUT), [])
          | Some (ReadFailed e) => (Returned (Some (ErrRead e)), [])
          | None =>
              match write_err t with
              | Some e => (Returned (Some (ErrWrite e)), [data t])
              | None =>
                  if negb (write_bw t =? n)
                  then (Returned None, [data t])
                  else
                    let '(o, ws) := readUdp_loop bytesRead' rest in
                    (o, data t :: ws)
              end
          end
      end
  end.

Definition readUdp (turns : list turn) : outcome * list (list Byte.byte) :=
  readUdp_loop 0 turns.

(** What the goroutine of [serveOneConnection] does with the result: a
    non-nil error is logged and sent to [tsr.ErrChannel]. *)
Definition ErrChannel_after (o : outcome) : list error :=
  match o with
  | Returned (Some e) => [e]
  | _ => []
  end.

(** The deferred function of [readUdp] closes the writer and the
    connection whenever the function returns, with or without an error. *)
Definition writer_closed (o : outcome) : bool :=
  match o with
  | Returned _ => true
  | Receiving => false
  end.

(** A turn in which a datagram arrives and is written in full, and a turn
    in which the deadline passes. *)
Definition datagram (d : list Byte.byte) : turn :=
  mkTurn None d None (Z.of_nat (length d)) None.

Definition timed_out : turn := mkTurn None [] (Some ReadTimeout) 0 None.

(** The number of bytes in a list of datagrams. *)
Definition total (ds : list (list Byte.byte)) : Z :=
  Z.of_nat (length (concat ds)).

End TsRecorder.

(** ** The test program: UDP input and file output *)

Module ElvAvpipe.
Import CInt.

(** [udp_packet_t]: the buffer and the length [recvfrom] reported. *)
Record udp_packet_t : Type := mkPacket {
  buf : list Byte.byte;
  len : Z
}.

(** [udp_thread_func]: every turn is the value of [readable_timeout] and
    the packet [recvfrom] fills if it is called.  The result is the
    packets sent to the channel and whether the thread has returned. *)
Fixpoint udp_thread_func (turns : list (Z * udp_packet_t))
    : list udp_packet_t * bool :=
  match turns with
  | [] => ([], false)
  | (readable, pkt) :: rest =>
      if readable <=? 0 then ([], true)
      else let '(sent, exited) := udp_thread_func rest in (pkt :: sent, exited)
  end.

(** The fields of [ioctx_t] the input callbacks of the test program use.
    [udp_channel = None] is the NULL channel of a file input; otherwise it
    holds the packets queued, oldest first. *)
Record ioctx_t : Type := mkIoctx {
  udp_channel : option (list udp_packet_t);
  cur_packet : option udp_packet_t;
  cur_pread : Z;
  read_bytes : Z;
  read_pos : Z
}.

(** [memcpy(buf, &p->buf[from], r)].  The count is converted to
    [size_t]: a negative one stands for a huge number of bytes, and a copy
    that starts or ends outside the packet's buffer is undefined. *)
Definition copy_out (p : udp_packet_t) (from r : Z)
    : c_result (list Byte.byte) :=
  if (r <? 0) || (from <? 0) || (Z.of_nat (length (buf p)) <? from + r)
  then Undefined
  else Done (take (Z.to_nat r) (drop (Z.to_nat from) (buf p))).

(** [in_read_packet(opaque, buf, buf_size)].  An empty channel makes
    [elv_channel_timed_receive] time out; [file_read] is the value of
    [read(fd, buf, buf_size)] and the bytes it stored, used for a file
    input only.  The result is the context, the bytes copied into [buf]
    and the returned count. *)
Definition in_read_packet (c : ioctx_t) (buf_size : Z)
    (file_read : Z * list Byte.byte)
    : c_result (ioctx_t * list Byte.byte * Z) :=
  match udp_channel c with
  | Some queue =>
      match cur_packet c with
      | Some p =>
          let r := if len p - cur_pread c <? buf_size
                   then len p - cur_pread c else buf_size in
          match copy_out p (cur_pread c) r with
          | Undefined => Undefined
          | Done out =>
              let pread := cur_pread c + r in
              if pread =? len p
              then Done (mkIoctx (Some queue) None 0
                                 (read_bytes c + r) (read_pos c + r), out, r)
              else Done (mkIoctx (Some queue) (Some p) pread
                                 (read_bytes c + r) (read_pos c + r), out, r)
          end
      | None =>
          match queue with
          | [] => Done (c, [], -1)                 (* ETIMEDOUT *)
          | udp_packet :: queue' =>
              let r := if len udp_packet <? buf_size
                       then len udp_packet else buf_size in
              match copy_out udp_packet 0 r with
              | Undefined => Undefined
              | Done out =>
                  if r <? len udp_packet
                  then Done (mkIoctx (Some queue') (Some udp_packet) r
                                     (read_bytes c + r) (read_pos c + r),
                             out, r)
                  else Done (mkIoctx (Some queue') None (cur_pread c)
                                     (read_bytes c + r) (read_pos c + r),
                             out, r)
              end
          end
      end
  | None =>
      let '(r, bytes) := file_read in
      let c' := if 0 <=? r
                then mkIoctx None (cur_packet c) (cur_pread c)
                             (read_bytes c + r) (read_pos c + r)
                else c in
      Done (c', bytes, if 0 <? r then r else -1)
  end.

(** Successive reads with the buffer sizes [sizes]; the result is the
    final context and what each call copied and returned. *)
Fixpoint read_all (c : ioctx_t) (sizes : list Z)
    : c_result (ioctx_t * list (list Byte.byte * Z)) :=
  match sizes with
  | [] => Done (c, [])
  | buf_size :: rest =>
      match in_read_packet c buf_size (0, []) with
      | Undefined => Undefined
      | Done (c', out, r) =>
          match read_all c' rest with
          | Undefined => Undefined
          | Done (c'', outs) => Done (c'', (out, r) :: outs)
          end
      end
  end.

(** A UDP input right after [in_opener], with [queue] in its channel. *)
Definition udp_input (queue : list udp_packet_t) : ioctx_t :=
  mkIoctx (Some queue) None 0 0 0.





(** *** [out_opener]: the path of an output *)

Local Open Scope string_scope.

(** The digits of a natural number, most significant first ([%d] and
    [%u] of [printf]); [fuel] bounds their number. *)
Definition digit_char (d : Z) : ascii :=
  ascii_of_nat (48 + Z.to_nat d).

Fixpoint digits (fuel : nat) (z : Z) (acc : string) : string :=
  match fuel with
  | O => acc
  | S fuel' =>
      let acc' := String (digit_char (z `mod` 10)) acc in
      if (z `div` 10 =? 0)%Z then acc' else digits fuel' (z `div` 10) acc'
  end.

(** No 32-bit integer has more than ten digits. *)
Definition fmt_u (z : Z) : string := digits 10 z "".

(** [%d] *)
Definition fmt_d (z : Z) : string :=
  if (z <? 0)%Z then String "-" (fmt_u (- z)) else fmt_u z.

Fixpoint zeros (n : nat) : string :=
  match n with
  | O => ""
  | S n' => String "0" (zeros n')
  end.

(** [%05d]: the sign counts for the width, the padding follows it. *)
Definition fmt_05d (z : Z) : string :=
  if (z <? 0)%Z
  then let s := fmt_u (- z) in
       String "-" (zeros (4 - String.length s)%nat ++ s)
  else let s := fmt_u z in
       zeros (5 - String.length s)%nat ++ s.

(** The buffer kinds of [avpipe_xc.h] that [out_opener] names. *)
Inductive avpipe_buftype_t : Type :=
| avpipe_video_init_stream
| avpipe_audio_init_stream
| avpipe_manifest
| avpipe_video_segment
| avpipe_audio_segment
| avpipe_master_m3u
| avpipe_video_m3u
| avpipe_audio_m3u
| avpipe_aes_128_key
| avpipe_mp4_stream
| avpipe_fmp4_stream
| avpipe_mp4_segment
| avpipe_fmp4_segment
| avpipe_other_type.

(** [sprintf(dir, "./O/O%d", gfd)] *)
Definition out_dir (gfd : Z) : string := "./O/O" ++ fmt_d gfd.

(** [sprintf(buffer, ...)] into [char buffer[size]]: the formatted text
    [s] and its terminating NUL must fit. *)
Definition sprintf_into (size : nat) (s : string) : c_result string :=
  if (String.length s <? size)%nat then Done s else Undefined.

(** The [switch (outctx->type)] of [out_opener], which fills
    [char segname[128]]: the path that is then opened, [None] for the
    [default] branch (return -1). *)
Definition out_opener_segname (gfd : Z) (url : string)
    (type : avpipe_buftype_t) (stream_index seg_index : Z)
    : c_result (option string) :=
  let dir := out_dir gfd in
  let segname (s : string) : c_result (option string) :=
    match sprintf_into 128 s with
    | Done path => Done (Some path)
    | Undefined => Undefined
    end in
  match type with
  | avpipe_manifest => segname (dir ++ "/" ++ "dash.mpd")
  | avpipe_master_m3u => segname (dir ++ "/" ++ "master.m3u8")
  | avpipe_video_init_stream
  | avpipe_audio_init_stream
  | avpipe_video_m3u
  | avpipe_audio_m3u
  | avpipe_aes_128_key
  | avpipe_mp4_stream
  | avpipe_fmp4_stream => segname (dir ++ "/" ++ url)
  | avpipe_video_segment
  | avpipe_audio_segment =>
      let segbase := "chunk-stream" in
      segname ("./" ++ dir ++ "/" ++ segbase ++ fmt_d stream_index ++ "-"
                 ++ fmt_05d seg_index ++ ".m4s")
  | avpipe_mp4_segment =>
      let segbase := "segment" in
      segname ("./" ++ dir ++ "/" ++ segbase ++ fmt_d stream_index ++ "-"
                 ++ fmt_05d seg_index ++ ".mp4")
  | avpipe_fmp4_segment =>
      let segbase := "fsegment" in
      segname ("./" ++ dir ++ "/" ++ segbase ++ fmt_d stream_index ++ "-"
                 ++ fmt_05d seg_index ++ ".mp4")
  | avpipe_other_type => Done None
  end.








(** The last component of a path: what follows its last [/]. *)
Fixpoint file_name_from (acc : string) (path : string) : string :=
  match path with
  | EmptyString => acc
  | String c rest =>
      if Ascii.eqb c "/"%char then file_name_from rest rest
      else file_name_from acc rest
  end.

Definition file_name (path : string) : string := file_name_from path path.

Local Close Scope string_scope.

(** *** Predicates on the adapter *)





End ElvAvpipe.

(** ** Concrete situations used to run the code *)

Module Scenario.

(** One session opened on a fresh dispatcher (handle 1), and the same
    with one video segment opened for it (slot 1). *)
Definition st0 : GoDispatcher.gstate :=
  GoDispatcher.init_state (Some 0%nat) (Some 0%nat).

Definition st_open : GoDispatcher.gstate :=
  (GoDispatcher.NewIOHandler st0 "in.mp4" (Some (7%nat, 1000))).1.1.

Definition st_slot : GoDispatcher.gstate :=
  match GoDispatcher.AVPipeOpenOutput st_open 1 0 1
          GoDispatcher.avpipe_video_segment (Some 9%nat) with
  | Ret (st, _) => st
  | GoPanic => st_open
  end.

Definition ctx0 : CBridge.ioctx_t := CBridge.mkIoctx 0 0 0 0 0.

(** Two sessions put in an empty table with the same draw of [rand()]. *)
Definition twin_table : list (option CBridge.txctx_entry_t) :=
  (CBridge.tx_table_put
     (CBridge.tx_table_put CBridge.empty_table CBridge.fresh_txctx 5).1.1
     CBridge.fresh_txctx 5).1.1.

(** The table after [MAX_TX] successful calls of [tx_init], with the
    draws 1, 2, ..., 128. *)
Definition full_table : list (option CBridge.txctx_entry_t) :=
  foldl (fun tbl r => (CBridge.tx_init tbl (Some "a.mp4"%string) 0 0 r).1.1)
        CBridge.empty_table (Z.of_nat <$> seq 1 CBridge.MAX_TX).

(** A table with one live session, of handle 5. *)
Definition one_session : list (option CBridge.txctx_entry_t) :=
  (CBridge.tx_table_put CBridge.empty_table CBridge.fresh_txctx 5).1.1.

End Scenario.

(** * Facts *)

Module CIntFacts.
Import CInt.

Lemma int32_wrap_id z : int32_range z -> int32_wrap z = z.
Proof.
  unfold int32_range, int32_wrap. intros Hz.
  rewrite Z.mod_small by lia. lia.
Qed.

Lemma int64_wrap_id z : int64_range z -> int64_wrap z = z.
Proof.
  unfold int64_range, int64_wrap. intros Hz.
  rewrite Z.mod_small by lia. lia.
Qed.

Lemma int32_wrap_range z : int32_range (int32_wrap z).
Proof.
  unfold int32_range, int32_wrap.
  pose proof (Z.mod_pos_bound (z + 2 ^ 31) (2 ^ 32) ltac:(lia)). lia.
Qed.

Lemma int64_wrap_range z : int64_range (int64_wrap z).
Proof.
  unfold int64_range, int64_wrap.
  pose proof (Z.mod_pos_bound (z + 2 ^ 63) (2 ^ 64) ltac:(lia)). lia.
Qed.

Lemma int64_wrap_succ z :
  0 <= z -> z + 1 < 2 ^ 63 -> int64_wrap (z + 1) = z + 1.
Proof. intros ??. apply int64_wrap_id. unfold int64_range. lia. Qed.

Lemma int32_wrap_eq z :
  int32_wrap z = z - 2 ^ 32 * ((z + 2 ^ 31) `div` 2 ^ 32).
Proof.
  unfold int32_wrap. rewrite Z.mod_eq by lia. lia.
Qed.

(** Two integers less than [2^32] apart wrap to different values. *)
Lemma int32_wrap_inj a b :
  - 2 ^ 32 < a - b < 2 ^ 32 -> int32_wrap a = int32_wrap b -> a = b.
Proof.
  rewrite !int32_wrap_eq. intros Hab Heq. lia.
Qed.

End CIntFacts.

Module GoDispatcherFacts.
Import CInt CIntFacts GoDispatcher.

(** *** Facts about the counters *)

Lemma lookup_handler_insert_eq st fd o :
  lookup_handler (set_gHandlers (fun m => <[fd := o]> m) st) fd = o.
Proof.
  unfold lookup_handler, set_gHandlers; simpl.
  rewrite lookup_insert_eq. by destruct o.
Qed.

Lemma lookup_handler_insert_ne st fd fd' o :
  fd <> fd' ->
  lookup_handler (set_gHandlers (fun m => <[fd := o]> m) st) fd'
  = lookup_handler st fd'.
Proof.
  intros Hne. unfold lookup_handler, set_gHandlers; simpl.
  by rewrite lookup_insert_ne.
Qed.

Ltac step_cases H :=
  repeat match type of H with
  | context [match ?x with _ => _ end] =>
      let E := fresh "E" in destruct x eqn:E; simpl in H
  | context [if ?b then _ else _] =>
      let E := fresh "E" in destruct b eqn:E; simpl in H
  | Ret _ = Ret _ => injection H as H; subst
  | (_, _) = (_, _) => injection H as H; subst
  | GoPanic = Ret _ => discriminate H
  end.

(** One call moves [gHandleNum] by at most one, and only upwards; the
    handle a successful [NewIOHandler] returns is the new counter. *)
Lemma step_gHandleNum st c st' v :
  step st c = Ret (st', v) ->
  0 <= gHandleNum st -> gHandleNum st + 1 < 2 ^ 63 ->
  gHandleNum st <= gHandleNum st' <= gHandleNum st + 1
  /\ (forall h, issued_handle (c, v) = Some h ->
        h = gHandleNum st' /\ gHandleNum st < h).
Proof.
  intros Hs H0 Hw.
  pose proof (int64_wrap_succ (gHandleNum st) H0 Hw) as Hsucc.
  destruct c; simpl in Hs;
    try (unfold keep, AVPipeReadInput, AVPipeSeekInput, AVPipeStatInput,
           AVPipeWriteOutput, AVPipeSeekOutput, AVPipeCloseOutput,
           AVPipeStatOutput in Hs;
         step_cases Hs; simplify_eq; simpl; split; [lia | done]).
  - (* NewIOHandler *)
    unfold NewIOHandler in Hs.
    destruct (match gURLInputOpeners st !! url with
              | Some o => Some o | None => gInputOpener st end);
      destruct (match gURLOutputOpeners st !! url with
                | Some o => Some o | None => gOutputOpener st end);
      try destruct reply as [[inp sz]|]; simplify_eq; simpl;
      rewrite ?Hsucc; (split; [lia|]); intros h;
      try done; case_match; intros; simplify_eq; lia.
  - (* AVPipeCloseInput *)
    unfold AVPipeCloseInput in Hs.
    step_cases Hs; simplify_eq; simpl; split; (lia || done).
  - (* AVPipeOpenOutput *)
    unfold AVPipeOpenOutput in Hs.
    step_cases Hs; simplify_eq; simpl; split; (lia || done).
Qed.

Lemma init_state_inv i o : registry_inv (init_state i o).
Proof.
  split; simpl; [lia|]. intros k [x Hx]. by rewrite lookup_empty in Hx.
Qed.

Lemma step_inv st c st' v :
  step st c = Ret (st', v) ->
  gHandleNum st + 1 < 2 ^ 63 ->
  registry_inv st -> registry_inv st'.
Proof.
  intros Hs Hw [H0 Hk].
  destruct (step_gHandleNum _ _ _ _ Hs H0 Hw) as [Hle _].
  split; [lia|].
  pose proof (int64_wrap_succ (gHandleNum st) H0 Hw) as Hsucc.
  destruct c; simpl in Hs;
    try (unfold keep, AVPipeReadInput, AVPipeSeekInput, AVPipeStatInput,
           AVPipeWriteOutput, AVPipeSeekOutput, AVPipeCloseOutput,
           AVPipeStatOutput in Hs;
         step_cases Hs; simplify_eq; done).
  - unfold NewIOHandler in Hs.
    destruct (match gURLInputOpeners st !! url with
              | Some o => Some o | None => gInputOpener st end);
      destruct (match gURLOutputOpeners st !! url with
                | Some o => Some o | None => gOutputOpener st end);
      try destruct reply as [[inp sz]|]; simplify_eq; simpl in *;
      rewrite ?Hsucc in *; intros k Hsome;
      try (specialize (Hk k Hsome); lia).
    destruct (decide (k = gHandleNum st + 1)) as [->|Hne]; [lia|].
    rewrite lookup_insert_ne in Hsome by done.
    specialize (Hk k Hsome); lia.
  - unfold AVPipeCloseInput in Hs. unfold lookup_handler in Hs.
    destruct (gHandlers st !! fd) as [[h|]|] eqn:E; simplify_eq; try done.
    assert (Hfd : 0 < fd <= gHandleNum st) by (apply Hk; by rewrite E).
    destruct err; simplify_eq; simpl in *; intros k Hsome;
      (destruct (decide (k = fd)) as [->|Hne]; [lia|]);
      rewrite lookup_insert_ne in Hsome by done; by apply Hk.
  - unfold AVPipeOpenOutput in Hs. unfold lookup_handler in Hs.
    destruct (gHandlers st !! handler) as [[h|]|] eqn:E; simplify_eq; try done.
    assert (Hfd : 0 < handler <= gHandleNum st) by (apply Hk; by rewrite E).
    step_cases Hs; simplify_eq; simpl in *; try done.
    intros k Hsome. destruct (decide (k = handler)) as [->|Hne]; [lia|].
    rewrite lookup_insert_ne in Hsome by done. by apply Hk.
Qed.

(** A handle whose entry is nil stays nil: nothing but [NewIOHandler]
    writes a fresh entry, and it writes it at the next counter value. *)
Lemma step_nil_stays st c st' v fd :
  step st c = Ret (st', v) ->
  gHandleNum st + 1 < 2 ^ 63 ->
  registry_inv st ->
  gHandlers st !! fd = Some None ->
  gHandlers st' !! fd = Some None.
Proof.
  intros Hs Hw [H0 Hk] Hnil.
  assert (Hfd : 0 < fd <= gHandleNum st) by (apply Hk; by rewrite Hnil).
  pose proof (int64_wrap_succ (gHandleNum st) H0 Hw) as Hsucc.
  destruct c; simpl in Hs;
    try (unfold keep, AVPipeReadInput, AVPipeSeekInput, AVPipeStatInput,
           AVPipeWriteOutput, AVPipeSeekOutput, AVPipeCloseOutput,
           AVPipeStatOutput in Hs;
         step_cases Hs; simplify_eq; done).
  - unfold NewIOHandler in Hs.
    destruct (match gURLInputOpeners st !! url with
              | Some o => Some o | None => gInputOpener st end);
      destruct (match gURLOutputOpeners st !! url with
                | Some o => Some o | None => gOutputOpener st end);
      try destruct reply as [[inp sz]|]; simplify_eq; simpl in *;
      rewrite ?Hsucc in *; try done.
    rewrite lookup_insert_ne by lia. done.
  - unfold AVPipeCloseInput in Hs. unfold lookup_handler in Hs.
    destruct (gHandlers st !! fd0) as [[h|]|] eqn:E; simplify_eq; try done.
    destruct err; simplify_eq; simpl in *;
      (destruct (decide (fd0 = fd)) as [->|Hne];
       [by rewrite lookup_insert_eq | by rewrite lookup_insert_ne]).
  - unfold AVPipeOpenOutput in Hs. unfold lookup_handler in Hs.
    destruct (gHandlers st !! handler) as [[h|]|] eqn:E; simplify_eq; try done.
    step_cases Hs; simplify_eq; simpl in *; try done.
    rewrite lookup_insert_ne; [done|]. intros ->. congruence.
Qed.

Lemma run_cons_ret st c cs st' v :
  step st c = Ret (st', v) ->
  run st (c :: cs) = ((run st' cs).1, (c, v) :: (run st' cs).2).
Proof. intros Hs. simpl. rewrite Hs. by destruct (run st' cs). Qed.

Lemma run_cons_panic st c cs :
  step st c = GoPanic -> run st (c :: cs) = (st, []).
Proof. intros Hs. simpl. by rewrite Hs. Qed.

Lemma run_inv cs : forall st,
  gHandleNum st + Z.of_nat (length cs) < 2 ^ 63 ->
  registry_inv st -> registry_inv (run st cs).1.
Proof.
  induction cs as [|c cs IH]; intros st Hw Hinv; [done|].
  simpl length in Hw.
  destruct (step st c) as [[st' v]|] eqn:Hs.
  - rewrite (run_cons_ret _ _ _ _ _ Hs); simpl.
    destruct Hinv as [H0 Hk].
    destruct (step_gHandleNum _ _ _ _ Hs H0 ltac:(lia)) as [Hle _].
    apply IH; [lia|]. eapply step_inv; eauto. lia. by split.
  - by rewrite (run_cons_panic _ _ _ Hs).
Qed.

Lemma run_nil_stays cs : forall st fd,
  gHandleNum st + Z.of_nat (length cs) < 2 ^ 63 ->
  registry_inv st ->
  gHandlers st !! fd = Some None ->
  gHandlers (run st cs).1 !! fd = Some None.
Proof.
  induction cs as [|c cs IH]; intros st fd Hw Hinv Hnil; [done|].
  simpl length in Hw.
  destruct (step st c) as [[st' v]|] eqn:Hs.
  - rewrite (run_cons_ret _ _ _ _ _ Hs); simpl.
    pose proof Hinv as [H0 Hk].
    destruct (step_gHandleNum _ _ _ _ Hs H0 ltac:(lia)) as [Hle _].
    apply IH; [lia| |].
    + eapply step_inv; eauto. lia.
    + eapply step_nil_stays; eauto. lia.
  - by rewrite (run_cons_panic _ _ _ Hs).
Qed.

Lemma handles_issued_cons cv vs :
  handles_issued (cv :: vs)
  = match issued_handle cv with
    | Some h => h :: handles_issued vs
    | None => handles_issued vs
    end.
Proof. reflexivity. Qed.


(** The handles a run issues are strictly increasing and all above the
    counter the run starts from. *)
Lemma run_handles_sorted cs : forall st,
  0 <= gHandleNum st ->
  gHandleNum st + Z.of_nat (length cs) < 2 ^ 63 ->
  StronglySorted Z.lt (handles_issued (run st cs).2)
  /\ Forall (fun h => gHandleNum st < h) (handles_issued (run st cs).2).
Proof.
  induction cs as [|c cs IH]; intros st H0 Hw.
  { split; constructor. }
  simpl length in Hw.
  destruct (step st c) as [[st' v]|] eqn:Hs.
  - rewrite (run_cons_ret _ _ _ _ _ Hs).
    cbn [fst snd]. rewrite handles_issued_cons.
    destruct (step_gHandleNum _ _ _ _ Hs H0 ltac:(lia)) as [Hle Hiss].
    destruct (IH st' ltac:(lia) ltac:(lia)) as [IHs IHf].
    destruct (issued_handle (c, v)) as [h|] eqn:Eh.
    + destruct (Hiss h eq_refl) as [-> Hlt].
      split; constructor; try done.
      eapply Forall_impl; [exact IHf|]. simpl; intros; lia.
    + split; [done|].
      eapply Forall_impl; [exact IHf|]. simpl; intros; lia.
  - rewrite (run_cons_panic _ _ _ Hs). split; constructor.
Qed.



Lemma StronglySorted_lt_NoDup (l : list Z) :
  StronglySorted Z.lt l -> NoDup l.
Proof.
  induction 1 as [|a l Hs IH Hf]; constructor; [|done].
  intros Hin. rewrite Forall_forall in Hf. specialize (Hf a Hin). lia.
Qed.

Lemma lookup_None_fatal st fd :
  lookup_handler st fd = None -> absent_handle_fatal st fd.
Proof.
  intros Hn. unfold absent_handle_fatal, AVPipeReadInput, AVPipeSeekInput,
    AVPipeCloseInput, AVPipeStatInput, AVPipeOpenOutput, AVPipeWriteOutput,
    AVPipeSeekOutput, AVPipeCloseOutput, AVPipeStatOutput.
  rewrite Hn. repeat split.
Qed.

Lemma close_leaves_nil st fd io err :
  lookup_handler st fd = Some io ->
  gHandlers (AVPipeCloseInput st fd err).1 !! fd = Some None
  /\ gHandleNum (AVPipeCloseInput st fd err).1 = gHandleNum st.
Proof.
  intros Hl. unfold AVPipeCloseInput. rewrite Hl.
  destruct err; simpl; by rewrite lookup_insert_eq.
Qed.

Lemma close_keeps_counter st fd err :
  gHandleNum (AVPipeCloseInput st fd err).1 = gHandleNum st.
Proof.
  unfold AVPipeCloseInput.
  destruct (lookup_handler st fd); [destruct err|]; done.
Qed.

Lemma close_inv st fd err :
  registry_inv st -> registry_inv (AVPipeCloseInput st fd err).1.
Proof.
  intros [H0 Hk]. split; [by rewrite close_keeps_counter|].
  rewrite close_keeps_counter.
  unfold AVPipeCloseInput, lookup_handler.
  destruct (gHandlers st !! fd) as [[h|]|] eqn:E; try done.
  assert (Hfd : 0 < fd <= gHandleNum st) by (apply Hk; by rewrite E).
  destruct err; simpl; intros k Hsome;
    (destruct (decide (k = fd)) as [->|Hne]; [lia|]);
    rewrite lookup_insert_ne in Hsome by done; by apply Hk.
Qed.

End GoDispatcherFacts.

Module LegacyDispatcherFacts.
Import CInt CIntFacts LegacyDispatcher.

(** On 32-bit arguments the formula never leaves the 64-bit range. *)
Lemma slot_fd_value stream_index seg_index :
  int32_range stream_index ->
  slot_fd stream_index seg_index
  = int32_wrap (seg_index - 1) * 2 + stream_index.
Proof.
  intros Hs. unfold slot_fd.
  pose proof (int32_wrap_range (seg_index - 1)) as Hr.
  unfold int32_range in *.
  rewrite (int64_wrap_id (int32_wrap (seg_index - 1) * 2))
    by (unfold int64_range; lia).
  apply int64_wrap_id. unfold int64_range. lia.
Qed.

(** With two streams, numbered 0 and 1, the formula tells all pairs
    apart. *)
Lemma slot_fd_inj s g s' g' :
  0 <= s <= 1 -> 0 <= s' <= 1 -> int32_range g -> int32_range g' ->
  slot_fd s g = slot_fd s' g' -> s = s' /\ g = g'.
Proof.
  intros Hs Hs' Hg Hg'. unfold int32_range in *.
  rewrite !slot_fd_value by (unfold int32_range; lia).
  intros Heq.
  assert (int32_wrap (g - 1) = int32_wrap (g' - 1) /\ s = s') as [Hw ->] by lia.
  split; [done|]. apply int32_wrap_inj in Hw; lia.
Qed.


End LegacyDispatcherFacts.

Module CBridgeFacts.
Import CInt CIntFacts CBridge.

(** *** Small runs of the table *)

Example put_first_slot :
  (tx_table_put empty_table fresh_txctx 42).2 = 42
  /\ (tx_table_put empty_table fresh_txctx 42).1.1 !! 0%nat
     = Some (Some (mkEntry 42 (mkTxctx 0 42 false false false))).
Proof. split; reflexivity. Qed.

Example put_negative_draw : rand_handle (-7) = 7.
Proof. reflexivity. Qed.

Example init_then_run :
  let '(tbl, _, h) := tx_init empty_table (Some "a.mp4"%string) 0 0 42 in
  h = 42 /\ (tx_run tbl 42 0).2 = 0
  /\ tx_table_find (tx_run tbl 42 0).1.1 42 = None.
Proof. vm_compute. done. Qed.

(** *** The loops, characterised *)

Lemma absent_in_step tbl h i n :
  (forall e, live_at tbl i e -> e_handle e <> h) ->
  absent_in tbl h (S i) n -> absent_in tbl h i (S n).
Proof.
  intros Hi Hrest j e Hj Hl.
  destruct (decide (j = i)) as [->|Hne]; [by apply Hi|].
  apply (Hrest j e); [lia|done].
Qed.

Lemma find_loop_None n : forall i tbl h,
  tx_table_find_loop n i tbl h = None <-> absent_in tbl h i n.
Proof.
  induction n as [|n IH]; intros i tbl h; simpl.
  { split; [|done]. intros _ j e Hj. lia. }
  destruct (tbl !! i) as [[e|]|] eqn:E.
  - destruct (e_handle e =? h) eqn:Eh.
    + apply Z.eqb_eq in Eh. split; [done|].
      intros Habs. exfalso. apply (Habs i e); [lia|done|done].
    + apply Z.eqb_neq in Eh. rewrite IH. split.
      * intros Hrest. apply absent_in_step; [|done].
        intros e' He'. unfold live_at in He'. congruence.
      * intros Habs j e' Hj. apply Habs. lia.
  - rewrite IH. split.
    + intros Hrest. apply absent_in_step; [|done].
      intros e' He'. unfold live_at in He'. congruence.
    + intros Habs j e' Hj. apply Habs. lia.
  - rewrite IH. split.
    + intros Hrest. apply absent_in_step; [|done].
      intros e' He'. unfold live_at in He'. congruence.
    + intros Habs j e' Hj. apply Habs. lia.
Qed.

Lemma find_loop_Some n : forall i tbl h e,
  tx_table_find_loop n i tbl h = Some e ->
  exists k, (i <= k < i + n)%nat /\ live_at tbl k e /\ e_handle e = h
            /\ absent_in tbl h i (k - i).
Proof.
  induction n as [|n IH]; intros i tbl h e; simpl; [done|].
  assert (Hskip : (forall e', live_at tbl i e' -> e_handle e' <> h) ->
                  tx_table_find_loop n (S i) tbl h = Some e ->
                  exists k, (i <= k < i + S n)%nat /\ live_at tbl k e
                            /\ e_handle e = h /\ absent_in tbl h i (k - i)).
  { intros Hi Hf. destruct (IH _ _ _ _ Hf) as (k & Hk & Hl & Hh & Habs).
    exists k. repeat split; try done; try lia.
    replace (k - i)%nat with (S (k - S i)) by lia.
    by apply absent_in_step. }
  destruct (tbl !! i) as [[e0|]|] eqn:E.
  - destruct (e_handle e0 =? h) eqn:Eh.
    + apply Z.eqb_eq in Eh. intros [= ->].
      exists i. repeat split; try done; try lia.
      intros j e' Hj. lia.
    + apply Z.eqb_neq in Eh. apply Hskip.
      intros e' He'. unfold live_at in He'. congruence.
  - apply Hskip. intros e' He'. unfold live_at in He'. congruence.
  - apply Hskip. intros e' He'. unfold live_at in He'. congruence.
Qed.

(** [tx_table_free_loop] either finds nothing and leaves the table, or
    stops at the first slot [k] that carries the handle. *)
Lemma free_loop_spec n : forall i tbl h,
  (absent_in tbl h i n /\ tx_table_free_loop n i tbl h = tbl)
  \/ exists k e, (i <= k < i + n)%nat /\ live_at tbl k e /\ e_handle e = h
       /\ absent_in tbl h i (k - i)
       /\ tx_table_free_loop n i tbl h
          = if index (e_txctx e) =? Z.of_nat k then <[k := None]> tbl else tbl.
Proof.
  induction n as [|n IH]; intros i tbl h; simpl.
  { left. split; [|done]. intros j e Hj. lia. }
  assert (Hskip : (forall e', live_at tbl i e' -> e_handle e' <> h) ->
    (absent_in tbl h i (S n) /\ tx_table_free_loop n (S i) tbl h = tbl)
    \/ exists k e, (i <= k < i + S n)%nat /\ live_at tbl k e /\ e_handle e = h
         /\ absent_in tbl h i (k - i)
         /\ tx_table_free_loop n (S i) tbl h
            = if index (e_txctx e) =? Z.of_nat k then <[k := None]> tbl else tbl).
  { intros Hi. destruct (IH (S i) tbl h) as [[Habs Heq]|(k & e & Hk & Hl & Hh & Habs & Heq)].
    - left. split; [by apply absent_in_step|done].
    - right. exists k, e. repeat split; try done; try lia.
      replace (k - i)%nat with (S (k - S i)) by lia.
      by apply absent_in_step. }
  destruct (tbl !! i) as [[e0|]|] eqn:E.
  - destruct (e_handle e0 =? h) eqn:Eh.
    + apply Z.eqb_eq in Eh. right. exists i, e0.
      repeat split; try done; try lia.
      intros j e' Hj. lia.
    + apply Z.eqb_neq in Eh. apply Hskip.
      intros e' He'. unfold live_at in He'. congruence.
  - apply Hskip. intros e' He'. unfold live_at in He'. congruence.
  - apply Hskip. intros e' He'. unfold live_at in He'. congruence.
Qed.

Lemma no_free_in_step tbl i n :
  tbl !! i <> Some None -> no_free_in tbl (S i) n -> no_free_in tbl i (S n).
Proof.
  intros Hi Hrest j Hj.
  destruct (decide (j = i)) as [->|Hne]; [done|]. apply Hrest. lia.
Qed.

(** [tx_table_put_loop] either finds no NULL slot and leaves everything,
    or fills the first NULL slot [k] with the drawn handle. *)
Lemma put_loop_spec n : forall i tbl txctx r,
  (no_free_in tbl i n /\ tx_table_put_loop n i tbl txctx r = (tbl, txctx, None))
  \/ exists k, (i <= k < i + n)%nat /\ tbl !! k = Some None
       /\ no_free_in tbl i (k - i)
       /\ tx_table_put_loop n i tbl txctx r
          = (<[k := Some (stored k txctx r)]> tbl, e_txctx (stored k txctx r),
             Some (stored k txctx r)).
Proof.
  induction n as [|n IH]; intros i tbl txctx r; simpl.
  { left. split; [|done]. intros j Hj. lia. }
  assert (Hskip : tbl !! i <> Some None ->
    (no_free_in tbl i (S n)
     /\ tx_table_put_loop n (S i) tbl txctx r = (tbl, txctx, None))
    \/ exists k, (i <= k < i + S n)%nat /\ tbl !! k = Some None
         /\ no_free_in tbl i (k - i)
         /\ tx_table_put_loop n (S i) tbl txctx r
            = (<[k := Some (stored k txctx r)]> tbl, e_txctx (stored k txctx r),
               Some (stored k txctx r))).
  { intros Hi. destruct (IH (S i) tbl txctx r) as [[Hno Heq]|(k & Hk & Hf & Hno & Heq)].
    - left. split; [by apply no_free_in_step|done].
    - right. exists k. repeat split; try done; try lia.
      replace (k - i)%nat with (S (k - S i)) by lia.
      by apply no_free_in_step. }
  destruct (tbl !! i) as [[e0|]|] eqn:E.
  - apply Hskip. congruence.
  - right. exists i. repeat split; try done; try lia.
    intros j Hj. lia.
  - apply Hskip. congruence.
Qed.

Lemma live_at_insert tbl k x j e :
  live_at (<[k := x]> tbl) j e ->
  (j = k /\ x = Some e) \/ (j <> k /\ live_at tbl j e).
Proof.
  unfold live_at. intros H.
  destruct (decide (j = k)) as [->|Hne].
  - left. split; [done|].
    destruct (decide (k < length tbl)%nat) as [Hlt|Hge].
    + rewrite list_lookup_insert_eq in H by done. congruence.
    + rewrite list_insert_ge in H by lia.
      apply lookup_lt_Some in H. lia.
  - right. split; [done|]. by rewrite list_lookup_insert_ne in H.
Qed.

Lemma find_after_free tbl h :
  slots_consistent tbl -> handle_unique tbl h ->
  tx_table_find (tx_table_free tbl h) h = None.
Proof.
  intros Hc Hu. unfold tx_table_find, tx_table_free.
  apply find_loop_None.
  destruct (free_loop_spec MAX_TX 0 tbl h)
    as [[Habs ->]|(k & e & Hk & Hl & Hh & Habs & ->)]; [done|].
  rewrite (Hc k e Hl), Z.eqb_refl.
  intros j e' Hj Hl' Heq.
  apply live_at_insert in Hl' as [[-> ?]|[Hne Hl']]; [done|].
  apply Hne. by apply (Hu j k e' e).
Qed.

Lemma put_distinct tbl txctx r :
  handles_distinct tbl ->
  (forall i e, live_at tbl i e -> e_handle e <> rand_handle r) ->
  handles_distinct (tx_table_put tbl txctx r).1.1.
Proof.
  intros Hd Hfresh. unfold tx_table_put.
  set (t0 := mkTxctx _ _ _ _ _).
  destruct (put_loop_spec MAX_TX 0 tbl t0 r)
    as [[_ ->]|(k & Hk & Hf & _ & ->)]; simpl; [done|].
  intros h i j e e' Hi Hj Hei Hej.
  apply live_at_insert in Hi as [[-> Hi]|[Hni Hi]];
    apply live_at_insert in Hj as [[-> Hj]|[Hnj Hj]]; try done.
  - injection Hi as <-. simpl in Hei. subst h.
    exfalso. by apply (Hfresh j e').
  - injection Hj as <-. simpl in Hej. subst h.
    exfalso. by apply (Hfresh i e).
  - by apply (Hd h i j e e').
Qed.

Lemma put_consistent tbl txctx r :
  slots_consistent tbl -> slots_consistent (tx_table_put tbl txctx r).1.1.
Proof.
  intros Hc. unfold tx_table_put.
  set (t0 := mkTxctx _ _ _ _ _).
  destruct (put_loop_spec MAX_TX 0 tbl t0 r)
    as [[_ ->]|(k & Hk & Hf & _ & ->)]; simpl; [done|].
  intros i e Hi.
  apply live_at_insert in Hi as [[-> Hi]|[Hni Hi]]; [|by apply Hc].
  by injection Hi as <-.
Qed.

(** The value [tx_table_put] returns: the drawn handle as soon as a slot
    is free, whatever the live entries carry. *)
Lemma put_returns tbl txctx r k :
  (k < MAX_TX)%nat -> tbl !! k = Some None ->
  (tx_table_put tbl txctx r).2 = rand_handle r.
Proof.
  intros Hk Hf. unfold tx_table_put.
  set (t0 := mkTxctx _ _ _ _ _).
  destruct (put_loop_spec MAX_TX 0 tbl t0 r)
    as [[Hno ->]|(k' & Hk' & Hf' & _ & ->)]; simpl; [|done].
  exfalso. apply (Hno k); [lia|done].
Qed.

(** With [k] the first NULL slot, the result of [tx_table_put] is
    fixed by [k] and the draw. *)
Lemma put_first_free tbl txctx r k :
  (k < MAX_TX)%nat -> tbl !! k = Some None -> no_free_in tbl 0 k ->
  tx_table_put tbl txctx r
  = (<[k := Some (stored k txctx r)]> tbl, e_txctx (stored k txctx r),
     rand_handle r).
Proof.
  intros Hk Hf Hno. unfold tx_table_put.
  set (t0 := mkTxctx _ _ _ _ _).
  destruct (put_loop_spec MAX_TX 0 tbl t0 r)
    as [[Hfull _]|(k' & Hk' & Hf' & Hno' & ->)].
  { destruct (Hfull k ltac:(lia) Hf). }
  rewrite Nat.sub_0_r in Hno'.
  assert (k' = k) as ->.
  { destruct (decide (k' < k)%nat) as [Hlt|Hge].
    - destruct (Hno k' ltac:(lia) Hf').
    - destruct (decide (k' = k)) as [|Hne]; [done|].
      destruct (Hno' k ltac:(lia) Hf). }
  done.
Qed.

Lemma rand_handle_nonneg r : 0 <= r < 2 ^ 31 -> rand_handle r = r.
Proof.
  intros Hr. unfold rand_handle.
  rewrite (int32_wrap_id r) by (unfold int32_range; lia).
  destruct (r <? 0) eqn:E; [apply Z.ltb_lt in E; lia|done].
Qed.

Lemma rand_handle_neg r : - 2 ^ 31 < r < 0 -> rand_handle r = - r.
Proof.
  intros Hr. unfold rand_handle.
  rewrite (int32_wrap_id r) by (unfold int32_range; lia).
  destruct (r <? 0) eqn:E; [|apply Z.ltb_ge in E; lia].
  apply int32_wrap_id. unfold int32_range. lia.
Qed.

Lemma put_full tbl txctx r :
  table_full tbl ->
  tx_table_put tbl txctx r
  = (tbl, mkTxctx (-1) (handle txctx) (decoder_cancelled txctx)
                  (encoder_cancelled txctx) (handlers_bound txctx), -1).
Proof.
  intros Hfull. unfold tx_table_put.
  set (t0 := mkTxctx _ _ _ _ _).
  destruct (put_loop_spec MAX_TX 0 tbl t0 r)
    as [[_ ->]|(k & Hk & Hf & _ & _)]; [done|].
  exfalso. apply (Hfull k); [lia|done].
Qed.

Lemma all_live_full (tbl : tx_table_t) :
  Forall is_Some tbl -> table_full tbl.
Proof.
  intros Hall j _ Hj.
  rewrite Forall_lookup in Hall. by destruct (Hall j None Hj).
Qed.

Lemma full_table_full : table_full Scenario.full_table.
Proof.
  apply all_live_full.
  apply (bool_decide_unpack _). vm_compute. exact I.
Qed.

Lemma empty_table_no_live i e : ~ live_at empty_table i e.
Proof.
  unfold live_at, empty_table. intros H.
  apply lookup_replicate in H as [H _]. congruence.
Qed.

Lemma empty_table_consistent : slots_consistent empty_table.
Proof. intros i e H. by apply empty_table_no_live in H. Qed.

Lemma empty_table_distinct : handles_distinct empty_table.
Proof. intros h i j e e' H. by apply empty_table_no_live in H. Qed.

Lemma one_session_consistent : slots_consistent Scenario.one_session.
Proof. apply put_consistent, empty_table_consistent. Qed.

Lemma one_session_distinct : handles_distinct Scenario.one_session.
Proof.
  apply put_distinct; [apply empty_table_distinct|].
  intros i e H. by apply empty_table_no_live in H.
Qed.

(** In [Scenario.one_session] the only live entry is in slot 0 and has
    handle 5. *)
Lemma one_session_live i e :
  live_at Scenario.one_session i e -> e_handle e = 5.
Proof.
  unfold Scenario.one_session, tx_table_put.
  set (t0 := mkTxctx _ _ _ _ _).
  destruct (put_loop_spec MAX_TX 0 empty_table t0 5)
    as [[_ ->]|(k & Hk & Hf & _ & ->)]; simpl; intros H.
  - by apply empty_table_no_live in H.
  - apply live_at_insert in H as [[-> H]|[_ H]].
    + by injection H as <-.
    + by apply empty_table_no_live in H.
Qed.

End CBridgeFacts.

Module ScenarioFacts.
Import GoDispatcher GoDispatcherFacts.

Lemma st_slot_is_a_run :
  Scenario.st_slot
  = (run Scenario.st0
       [CallNewIOHandler "in.mp4" (Some (7%nat, 1000));
        CallOpenOutput 1 0 1 avpipe_video_segment (Some 9%nat)]).1.
Proof. vm_compute. reflexivity. Qed.

Lemma st_slot_inv : registry_inv Scenario.st_slot.
Proof.
  rewrite st_slot_is_a_run. apply run_inv.
  - vm_compute. reflexivity.
  - apply init_state_inv.
Qed.

End ScenarioFacts.

Module TsRecorderFacts.
Import CInt CIntFacts TsRecorder.

Lemma total_cons d ds : total (d :: ds) = Z.of_nat (length d) + total ds.
Proof. unfold total. simpl. rewrite length_app. lia. Qed.

Lemma total_nonneg ds : 0 <= total ds.
Proof. unfold total. lia. Qed.

(** A deadline that passes before any byte was read leaves the loop where
    it was. *)
Lemma timeout_before_data rest :
  readUdp_loop 0 (timed_out :: rest) = readUdp_loop 0 rest.
Proof. reflexivity. Qed.

Lemma timeouts_before_data k rest :
  readUdp_loop 0 (replicate k timed_out ++ rest) = readUdp_loop 0 rest.
Proof.
  induction k as [|k IH]; [done|].
  simpl replicate. rewrite <- app_comm_cons.
  by rewrite timeout_before_data.
Qed.

Lemma only_timeouts k : readUdp_loop 0 (replicate k timed_out) = (Receiving, []).
Proof.
  rewrite <- (app_nil_r (replicate k timed_out)).
  by rewrite timeouts_before_data.
Qed.

(** A deadline that passes after some byte was read ends the loop with
    [EAV_IO_TIMEOUT]. *)
Lemma timeout_after_data b rest :
  0 < b < 2 ^ 63 ->
  readUdp_loop b (timed_out :: rest) = (Returned (Some EAV_IO_TIMEOUT), []).
Proof.
  intros Hb. simpl. rewrite Z.add_0_r.
  rewrite int64_wrap_id by (unfold int64_range; lia).
  destruct (b =? 0) eqn:E; [lia|done].
Qed.

(** Datagrams that arrive and are written in full go to the writer in
    their order and add up in the counter. *)
Lemma datagrams_written ds : forall b rest,
  0 <= b -> b + total ds < 2 ^ 63 ->
  readUdp_loop b (map datagram ds ++ rest)
  = ((readUdp_loop (b + total ds) rest).1,
     ds ++ (readUdp_loop (b + total ds) rest).2).
Proof.
  induction ds as [|d ds IH]; intros b rest Hb Hw.
  - unfold total. simpl. rewrite Z.add_0_r.
    by destruct (readUdp_loop b rest).
  - rewrite total_cons in Hw. pose proof (total_nonneg ds) as Ht.
    simpl map. rewrite <- app_comm_cons.
    cbn [readUdp_loop datagram deadline_err read_err write_err write_bw data].
    rewrite Z.eqb_refl. cbn [negb].
    rewrite int64_wrap_id by (unfold int64_range; lia).
    rewrite IH by lia. cbn [fst snd].
    rewrite total_cons. by rewrite Z.add_assoc.
Qed.

End TsRecorderFacts.

Module ElvAvpipeFacts.
Import CInt CIntFacts ElvAvpipe.

(** The reader thread stops at the first turn in which
    [readable_timeout] does not report data, whatever came before. *)
Lemma udp_thread_stops_at_timeout pkts pkt rest :
  udp_thread_func (map (fun p => (1, p)) pkts ++ (0, pkt) :: rest)
  = (pkts, true).
Proof.
  induction pkts as [|p pkts IH]; [done|].
  simpl. simpl in IH. by rewrite IH.
Qed.


(** *** The stream adapter *)









(** *** The printed numbers *)


(** *** [%d] and [%05d] against the Standard Library's printing *)























Example segment_path :
  out_opener_segname 3 "" avpipe_video_segment 1 5
  = Done (Some "././O/O3/chunk-stream1-00005.m4s"%string)
  /\ file_name "././O/O3/chunk-stream1-00005.m4s" = "chunk-stream1-00005.m4s"%string.
Proof. split; reflexivity. Qed.

Example negative_segment_index : fmt_05d (-1) = "-0001"%string.
Proof. reflexivity. Qed.

Example long_segment_index : fmt_05d 123456 = "123456"%string.
Proof. reflexivity. Qed.

End ElvAvpipeFacts.

(** * The claims *)

Import CInt CIntFacts.

(** C1 (the code departs from the claim).  For a live session, an open
    slot and a buffer size that is not negative, whatever the backend
    answers to [Write], a byte count short of the buffer or an error, the
    C callback [out_write_packet] returns [buf_size] to the engine; the -1
    that [AVPipeWriteOutput] returns for a backend error stops there.
    (For a negative size [C.GoBytes] panics and nothing is returned.) *)
Theorem out_write_packet_hides_backend_failure
    (st : GoDispatcher.gstate) (outctx : CBridge.ioctx_t) (h fd buf_size : Z)
    (io : GoDispatcher.ioHandler) (slot : GoDispatcher.OutputHandler)
    (n : Z) (err : bool) :
  GoDispatcher.lookup_handler st h = Some io ->
  GoDispatcher.getOutTable io fd = Some slot ->
  0 <= buf_size ->
  GoDispatcher.AVPipeWriteOutput st h fd buf_size (n, err)
    = Ret (if err then -1 else int32_wrap n)
  /\ CBridge.engine_write st outctx h fd buf_size (n, err) = Ret buf_size
  /\ (forall sz, sz < 0 ->
       GoDispatcher.AVPipeWriteOutput st h fd sz (n, err) = GoPanic
       /\ CBridge.engine_write st outctx h fd sz (n, err) = GoPanic).
Proof.
  intros Hl Hs Hb.
  unfold CBridge.engine_write, GoDispatcher.AVPipeWriteOutput.
  rewrite Hl, Hs.
  assert (E : (buf_size <? 0) = false) by (apply Z.ltb_ge; lia).
  rewrite E. split; [by destruct err|]. split; [by destruct err|].
  intros sz Hsz. apply Z.ltb_lt in Hsz. by rewrite Hsz.
Qed.

Lemma out_write_packet_hides_backend_failure_witness :
  GoDispatcher.AVPipeWriteOutput Scenario.st_slot 1 1 10 (0, true) = Ret (-1)
  /\ CBridge.engine_write Scenario.st_slot Scenario.ctx0 1 1 10 (0, true) = Ret 10.
Proof.
  destruct (out_write_packet_hides_backend_failure
              Scenario.st_slot Scenario.ctx0 1 1 10
              (GoDispatcher.mkIoHandler 7%nat (<[1 := 9%nat]> ∅)) 9%nat 0 true)
    as (Hgo & Hc & _).
  - vm_compute. reflexivity.
  - vm_compute. reflexivity.
  - lia.
  - split; [exact Hgo|exact Hc].
Defined.

(** C2 (amended).  On a live handle, with a reply [(n, err)] of the
    backend that fits the buffer, [AVPipeReadInput] returns [n] when there
    is no error, so 0 at the end of the stream, and -1 when there is one.
    The C callback [in_read_packet] hands only positive counts on: the
    engine receives -1 at the end of the stream as well as for an error,
    and never 0. *)
Theorem read_result_at_each_layer
    (BYTES_READ_REPORT : Z) (st : GoDispatcher.gstate) (c : CBridge.ioctx_t)
    (fd sz n : Z) (err : bool) (io : GoDispatcher.ioHandler) :
  GoDispatcher.lookup_handler st fd = Some io ->
  0 <= n <= sz -> sz < 2 ^ 31 ->
  GoDispatcher.AVPipeReadInput st fd sz (n, err)
    = Ret (if err then -1 else n)
  /\ CBridge.engine_read BYTES_READ_REPORT st c fd sz (n, err)
    = Ret (if err then -1 else if 0 <? n then n else -1)
  /\ CBridge.engine_read BYTES_READ_REPORT st c fd sz (n, err) <> Ret 0.
Proof.
  intros Hl Hn Hsz.
  assert (Hgo : GoDispatcher.AVPipeReadInput st fd sz (n, err)
                = Ret (if err then -1 else n)).
  { unfold GoDispatcher.AVPipeReadInput. rewrite Hl.
    destruct (sz <? 0) eqn:E1; [lia|].
    destruct ((0 <? n) && (sz =? 0)) eqn:E2; [lia|].
    destruct err; [done|].
    rewrite int32_wrap_id; [done|]. unfold int32_range. lia. }
  unfold CBridge.engine_read. rewrite Hgo. unfold CBridge.in_read_packet.
  cbn [snd]. destruct err; cbn.
  - split; [done|]. split; [done|]. discriminate.
  - split; [done|]. destruct (0 <? n) eqn:E; (split; [done|]);
      intros [= Heq]; lia.
Qed.

Lemma read_result_at_each_layer_witness :
  GoDispatcher.AVPipeReadInput Scenario.st_open 1 4096 (188, false) = Ret 188
  /\ CBridge.engine_read 1048576 Scenario.st_open Scenario.ctx0 1 4096 (188, false)
     = Ret 188
  /\ CBridge.engine_read 1048576 Scenario.st_open Scenario.ctx0 1 4096 (188, false)
     <> Ret 0.
Proof.
  eapply (read_result_at_each_layer 1048576 Scenario.st_open Scenario.ctx0
            1 4096 188 false);
    [vm_compute; reflexivity | lia | lia].
Defined.

(** C2, the claim refuted: at the end of the stream the backend answers
    [(0, nil)]; the dispatcher returns 0, and the engine is given -1. *)
Lemma end_of_stream_reaches_engine_as_error :
  GoDispatcher.AVPipeReadInput Scenario.st_open 1 4096 (0, false) = Ret 0
  /\ CBridge.engine_read 1048576 Scenario.st_open Scenario.ctx0 1 4096 (0, false)
     = Ret (-1).
Proof. split; vm_compute; reflexivity. Qed.

(** C3 (amended).  In the registry of the dispatcher, a handle that was
    live when [AVPipeCloseInput] was called on it is looked up as nil after
    every later sequence of calls, and each of the nine exported functions
    answers -1 for it.  In the session table of [avpipe.c] the lookup after
    [tx_table_free] finds nothing, and [tx_run] fails with -1, when no
    other live entry carries the same handle. *)
Theorem lookup_after_unregister
    (st : GoDispatcher.gstate) (fd : Z) (io : GoDispatcher.ioHandler)
    (err : bool) (cs : list GoDispatcher.call)
    (tbl : list (option CBridge.txctx_entry_t)) (h tx_rc : Z) :
  GoDispatcher.registry_inv st ->
  GoDispatcher.lookup_handler st fd = Some io ->
  GoDispatcher.gHandleNum st + Z.of_nat (length cs) < 2 ^ 63 ->
  CBridge.slots_consistent tbl ->
  CBridge.handle_unique tbl h ->
  let st' := (GoDispatcher.run (GoDispatcher.AVPipeCloseInput st fd err).1 cs).1 in
  GoDispatcher.lookup_handler st' fd = None
  /\ GoDispatcher.absent_handle_fatal st' fd
  /\ CBridge.tx_table_find (CBridge.tx_table_free tbl h) h = None
  /\ (CBridge.tx_run (CBridge.tx_table_free tbl h) h tx_rc).2 = -1.
Proof.
  intros Hinv Hl Hw Hc Hu st'.
  destruct (GoDispatcherFacts.close_leaves_nil st fd io err Hl) as [Hnil Hcnt].
  assert (Hnone : GoDispatcher.lookup_handler st' fd = None).
  { unfold GoDispatcher.lookup_handler, st'.
    rewrite (GoDispatcherFacts.run_nil_stays cs _ fd); try done.
    - rewrite Hcnt. lia.
    - by apply GoDispatcherFacts.close_inv. }
  pose proof (CBridgeFacts.find_after_free tbl h Hc Hu) as Hfind.
  split; [done|].
  split; [by apply GoDispatcherFacts.lookup_None_fatal|].
  split; [done|].
  unfold CBridge.tx_run. by rewrite Hfind.
Qed.

Lemma lookup_after_unregister_witness :
  let st' :=
    (GoDispatcher.run (GoDispatcher.AVPipeCloseInput Scenario.st_slot 1 false).1
       [GoDispatcher.CallNewIOHandler "next.mp4" (Some (8%nat, 2000));
        GoDispatcher.CallReadInput 2 4096 (188, false)]).1 in
  GoDispatcher.lookup_handler st' 1 = None
  /\ GoDispatcher.absent_handle_fatal st' 1
  /\ CBridge.tx_table_find (CBridge.tx_table_free Scenario.one_session 5) 5 = None
  /\ (CBridge.tx_run (CBridge.tx_table_free Scenario.one_session 5) 5 0).2 = -1.
Proof.
  eapply (lookup_after_unregister Scenario.st_slot 1 _ false _
            Scenario.one_session 5 0).
  - exact ScenarioFacts.st_slot_inv.
  - vm_compute. reflexivity.
  - vm_compute. reflexivity.
  - exact CBridgeFacts.one_session_consistent.
  - exact (CBridgeFacts.one_session_distinct 5).
Defined.

(** C3, the claim refuted on the session table: two sessions were put
    with the same draw, 5; after [tx_table_free 5] the lookup of 5 still
    returns an entry, the one of the other session in slot 1. *)
Lemma lookup_after_free_finds_other_session :
  CBridge.tx_table_find (CBridge.tx_table_free Scenario.twin_table 5) 5
  = Some (CBridge.mkEntry 5 (CBridge.mkTxctx 1 5 false false false)).
Proof. vm_compute. reflexivity. Qed.

(** C4 (amended).  [tx_table_put] stores the entry in the first NULL
    slot [k] of the table, under the handle made of one draw [r] of
    [rand()] (the draw itself, or its opposite when it is negative), and
    returns that handle: the table, the context and the value returned
    are the same whatever handles the live entries carry, also when one
    of them carries the handle drawn, which then stays live under the
    same handle in its own slot.  No other slot changes.  So the live
    handles of a table where they are pairwise distinct stay pairwise
    distinct exactly when the handle drawn differs from each of them. *)
Theorem tx_table_put_stores_the_draw_in_the_first_free_slot
    (tbl : list (option CBridge.txctx_entry_t)) (txctx : CBridge.txctx_t)
    (r : Z) (k : nat) :
  (k < CBridge.MAX_TX)%nat -> tbl !! k = Some None ->
  CBridge.no_free_in tbl 0 k ->
  let tbl' := (CBridge.tx_table_put tbl txctx r).1.1 in
  let h := (CBridge.tx_table_put tbl txctx r).2 in
  CBridge.tx_table_put tbl txctx r
  = (<[k := Some (CBridge.stored k txctx r)]> tbl,
     CBridge.e_txctx (CBridge.stored k txctx r), CBridge.rand_handle r)
  /\ (0 <= r < 2 ^ 31 -> h = r)
  /\ (- 2 ^ 31 < r < 0 -> h = - r)
  /\ tbl' !! k
     = Some (Some (CBridge.mkEntry h
                     (CBridge.mkTxctx (Z.of_nat k) h
                        (CBridge.decoder_cancelled txctx)
                        (CBridge.encoder_cancelled txctx)
                        (CBridge.handlers_bound txctx))))
  /\ (forall j, j <> k -> tbl' !! j = tbl !! j)
  /\ (forall i e, CBridge.live_at tbl i e -> CBridge.e_handle e = h ->
        i <> k /\ CBridge.live_at tbl' i e)
  /\ (CBridge.handles_distinct tbl ->
      (CBridge.handles_distinct tbl'
       <-> forall i e, CBridge.live_at tbl i e -> CBridge.e_handle e <> h)).
Proof.
  intros Hk Hfree Hno tbl' h.
  assert (Hlen : (k < length tbl)%nat) by (by apply lookup_lt_Some in Hfree).
  assert (Hput : CBridge.tx_table_put tbl txctx r
                 = (<[k := Some (CBridge.stored k txctx r)]> tbl,
                    CBridge.e_txctx (CBridge.stored k txctx r),
                    CBridge.rand_handle r))
    by (by apply CBridgeFacts.put_first_free).
  subst tbl' h. rewrite Hput. cbn [fst snd].
  split; [done|].
  split; [intros Hr; by apply CBridgeFacts.rand_handle_nonneg|].
  split; [intros Hr; by apply CBridgeFacts.rand_handle_neg|].
  split; [by rewrite list_lookup_insert_eq|].
  split; [intros j Hj; by rewrite list_lookup_insert_ne|].
  assert (Hkeep : forall i e, CBridge.live_at tbl i e ->
            i <> k
            /\ CBridge.live_at (<[k := Some (CBridge.stored k txctx r)]> tbl) i e).
  { intros i e Hl.
    assert (i <> k) by (intros ->; unfold CBridge.live_at in Hl; congruence).
    split; [done|]. unfold CBridge.live_at.
    by rewrite list_lookup_insert_ne. }
  split; [intros i e Hl _; by apply Hkeep|].
  intros Hd. split.
  - intros Hd' i e Hl Heq.
    destruct (Hkeep i e Hl) as [Hne Hl'].
    apply Hne.
    apply (Hd' (CBridge.rand_handle r) i k e (CBridge.stored k txctx r));
      try done.
    unfold CBridge.live_at. by rewrite list_lookup_insert_eq.
  - intros Hfresh.
    pose proof (CBridgeFacts.put_distinct tbl txctx r Hd Hfresh) as Hd'.
    by rewrite Hput in Hd'.
Qed.

Lemma tx_table_put_stores_the_draw_in_the_first_free_slot_witness :
  CBridge.tx_table_put Scenario.one_session CBridge.fresh_txctx (-7)
  = (<[1%nat := Some (CBridge.stored 1 CBridge.fresh_txctx (-7))]>
       Scenario.one_session,
     CBridge.e_txctx (CBridge.stored 1 CBridge.fresh_txctx (-7)), 7)
  /\ (CBridge.tx_table_put Scenario.one_session CBridge.fresh_txctx (-7)).1.1
       !! 1%nat
     = Some (Some (CBridge.mkEntry 7 (CBridge.mkTxctx 1 7 false false false)))
  /\ CBridge.handles_distinct
       (CBridge.tx_table_put Scenario.one_session CBridge.fresh_txctx (-7)).1.1.
Proof.
  destruct (tx_table_put_stores_the_draw_in_the_first_free_slot
              Scenario.one_session CBridge.fresh_txctx (-7) 1)
    as (Hput & _ & Hneg & Hk & _ & _ & Hd).
  - unfold CBridge.MAX_TX. lia.
  - vm_compute. reflexivity.
  - intros j Hj. assert (j = 0%nat) as -> by lia. vm_compute. discriminate.
  - split; [exact Hput|]. split; [exact Hk|].
    apply (Hd CBridgeFacts.one_session_distinct).
    intros i e H. rewrite (CBridgeFacts.one_session_live i e H).
    vm_compute. discriminate.
Defined.

(** C4, the claim refuted: a second [tx_table_put] whose draw repeats the
    handle of a live session is not retried; both calls return 5 and the
    table holds two live entries with handle 5. *)
Lemma tx_table_put_repeats_live_handle :
  (CBridge.tx_table_put CBridge.empty_table CBridge.fresh_txctx 5).2 = 5
  /\ (CBridge.tx_table_put Scenario.one_session CBridge.fresh_txctx 5).2 = 5
  /\ Scenario.twin_table !! 0%nat
     = Some (Some (CBridge.mkEntry 5 (CBridge.mkTxctx 0 5 false false false)))
  /\ Scenario.twin_table !! 1%nat
     = Some (Some (CBridge.mkEntry 5 (CBridge.mkTxctx 1 5 false false false))).
Proof. repeat split; vm_compute; reflexivity. Qed.

(** C5 (the code departs from the claim).  With no NULL slot left in the
    table, a [tx_init] whose input opens and whose [avpipe_init] succeeds
    returns -1 and leaves the table as it was, but it does not take the
    branch that releases the resources: [handle] is a [uint32_t], the test
    [handle < 0] is never true, and the function goes on to bind the
    handlers and to return the converted 4294967295.  The input stays
    open and the context is not finalised. *)
Theorem tx_init_on_full_table_skips_cleanup
    (tbl : list (option CBridge.txctx_entry_t)) (c : ascii) (name : string)
    (opener_rc init_rc r : Z) :
  CBridge.table_full tbl ->
  0 <= opener_rc -> 0 <= init_rc ->
  CBridge.tx_init tbl (Some (String c name)) opener_rc init_rc r
  = (tbl,
     [CBridge.EvSetHandlers; CBridge.EvInOpener; CBridge.EvAvpipeInit;
      CBridge.EvBindHandlers],
     -1)
  /\ (CBridge.EvInCloser
       ∉ (CBridge.tx_init tbl (Some (String c name)) opener_rc init_rc r).1.2)
  /\ (CBridge.EvAvpipeFini
       ∉ (CBridge.tx_init tbl (Some (String c name)) opener_rc init_rc r).1.2).
Proof.
  intros Hfull Ho Hi.
  assert (Heq : CBridge.tx_init tbl (Some (String c name)) opener_rc init_rc r
    = (tbl,
       [CBridge.EvSetHandlers; CBridge.EvInOpener; CBridge.EvAvpipeInit;
        CBridge.EvBindHandlers],
       -1)).
  { unfold CBridge.tx_init.
    destruct (opener_rc <? 0) eqn:E1; [lia|].
    destruct (init_rc <? 0) eqn:E2; [lia|].
    rewrite (CBridgeFacts.put_full _ _ _ Hfull). reflexivity. }
  rewrite Heq. cbn [fst snd].
  split; [done|]. split; intros Hin;
    repeat (apply elem_of_cons in Hin as [Hin|Hin]; [discriminate|]);
    by apply elem_of_nil in Hin.
Qed.

Lemma tx_init_on_full_table_skips_cleanup_witness :
  CBridge.tx_init Scenario.full_table (Some "b.mp4"%string) 0 0 77
  = (Scenario.full_table,
     [CBridge.EvSetHandlers; CBridge.EvInOpener; CBridge.EvAvpipeInit;
      CBridge.EvBindHandlers],
     -1)
  /\ (CBridge.EvInCloser
       ∉ (CBridge.tx_init Scenario.full_table (Some "b.mp4"%string) 0 0 77).1.2)
  /\ (CBridge.EvAvpipeFini
       ∉ (CBridge.tx_init Scenario.full_table (Some "b.mp4"%string) 0 0 77).1.2).
Proof.
  apply (tx_init_on_full_table_skips_cleanup Scenario.full_table
           "b"%char "mp4"%string 0 0 77).
  - exact CBridgeFacts.full_table_full.
  - lia.
  - lia.
Defined.

(** C10.  Along every sequence of dispatcher calls that does not exhaust
    the 63 bits of the counter, the handles returned by the successful
    [NewIOHandler] calls are strictly increasing, each is above the counter
    the sequence started from and hence positive, and none occurs twice,
    whatever [AVPipeCloseInput] calls lie in between: closing a live input
    leaves a nil entry under its handle and does not touch [gHandleNum]. *)
Theorem NewIOHandler_handles_strictly_increase
    (st : GoDispatcher.gstate) (cs : list GoDispatcher.call) :
  0 <= GoDispatcher.gHandleNum st ->
  GoDispatcher.gHandleNum st + Z.of_nat (length cs) < 2 ^ 63 ->
  let hs := GoDispatcher.handles_issued (GoDispatcher.run st cs).2 in
  StronglySorted Z.lt hs
  /\ Forall (fun h => GoDispatcher.gHandleNum st < h /\ 0 < h) hs
  /\ NoDup hs
  /\ (forall fd err,
        GoDispatcher.gHandleNum (GoDispatcher.AVPipeCloseInput st fd err).1
        = GoDispatcher.gHandleNum st)
  /\ (forall fd err io,
        GoDispatcher.lookup_handler st fd = Some io ->
        GoDispatcher.gHandlers (GoDispatcher.AVPipeCloseInput st fd err).1 !! fd
        = Some None).
Proof.
  intros H0 Hw hs.
  destruct (GoDispatcherFacts.run_handles_sorted cs st H0 Hw) as [Hs Hf].
  fold hs in Hs, Hf.
  split; [done|]. split.
  { eapply Forall_impl; [exact Hf|]. simpl. intros h Hh. lia. }
  split; [by apply GoDispatcherFacts.StronglySorted_lt_NoDup|].
  split.
  - apply GoDispatcherFacts.close_keeps_counter.
  - intros fd err io Hl.
    by destruct (GoDispatcherFacts.close_leaves_nil st fd io err Hl).
Qed.

Lemma NewIOHandler_handles_strictly_increase_witness :
  let cs :=
    [GoDispatcher.CallNewIOHandler "a.mp4" (Some (7%nat, 1000));
     GoDispatcher.CallCloseInput 1 false;
     GoDispatcher.CallNewIOHandler "a.mp4" (Some (7%nat, 1000));
     GoDispatcher.CallNewIOHandler "missing.mp4" None;
     GoDispatcher.CallNewIOHandler "b.mp4" (Some (8%nat, 2000))] in
  let hs := GoDispatcher.handles_issued (GoDispatcher.run Scenario.st0 cs).2 in
  StronglySorted Z.lt hs
  /\ Forall (fun h => GoDispatcher.gHandleNum Scenario.st0 < h /\ 0 < h) hs
  /\ NoDup hs
  /\ (forall fd err,
        GoDispatcher.gHandleNum (GoDispatcher.AVPipeCloseInput Scenario.st0 fd err).1
        = GoDispatcher.gHandleNum Scenario.st0)
  /\ (forall fd err io,
        GoDispatcher.lookup_handler Scenario.st0 fd = Some io ->
        GoDispatcher.gHandlers (GoDispatcher.AVPipeCloseInput Scenario.st0 fd err).1 !! fd
        = Some None).
Proof.
  apply (NewIOHandler_handles_strictly_increase Scenario.st0).
  - vm_compute. discriminate.
  - vm_compute. reflexivity.
Defined.

(** The handles of that run, computed: 1, 2 and 4; the failed open used
    up 3. *)
Example handles_of_a_run :
  GoDispatcher.handles_issued
    (GoDispatcher.run Scenario.st0
       [GoDispatcher.CallNewIOHandler "a.mp4" (Some (7%nat, 1000));
        GoDispatcher.CallCloseInput 1 false;
        GoDispatcher.CallNewIOHandler "a.mp4" (Some (7%nat, 1000));
        GoDispatcher.CallNewIOHandler "missing.mp4" None;
        GoDispatcher.CallNewIOHandler "b.mp4" (Some (8%nat, 2000))]).2
  = [1; 2; 4].
Proof. vm_compute. reflexivity. Qed.




(** C6 (amended).  In [readUdp], deadlines that pass before any byte was
    read leave the reader in its loop: nothing is returned and the writer
    stays open.  A deadline that passes after datagrams with at least one
    byte were read and written ends the reader: the writer is closed, and
    the function returns the error [EAV_IO_TIMEOUT], which its goroutine
    sends to [ErrChannel].  The reader thread of the test program,
    [udp_thread_func], returns at the first timeout, with or without
    packets received before. *)
Theorem readUdp_on_timeout
    (k : nat) (ds : list (list Byte.byte)) (rest : list TsRecorder.turn)
    (pkts : list ElvAvpipe.udp_packet_t) (pkt : ElvAvpipe.udp_packet_t)
    (more : list (Z * ElvAvpipe.udp_packet_t)) :
  0 < TsRecorder.total ds < 2 ^ 63 ->
  TsRecorder.readUdp (replicate k TsRecorder.timed_out)
    = (TsRecorder.Receiving, [])
  /\ TsRecorder.writer_closed
       (TsRecorder.readUdp (replicate k TsRecorder.timed_out)).1 = false
  /\ TsRecorder.readUdp
       (replicate k TsRecorder.timed_out ++ map TsRecorder.datagram ds
          ++ TsRecorder.timed_out :: rest)
     = (TsRecorder.Returned (Some TsRecorder.EAV_IO_TIMEOUT), ds)
  /\ TsRecorder.writer_closed
       (TsRecorder.readUdp
          (replicate k TsRecorder.timed_out ++ map TsRecorder.datagram ds
             ++ TsRecorder.timed_out :: rest)).1 = true
  /\ TsRecorder.ErrChannel_after
       (TsRecorder.readUdp
          (replicate k TsRecorder.timed_out ++ map TsRecorder.datagram ds
             ++ TsRecorder.timed_out :: rest)).1
     = [TsRecorder.EAV_IO_TIMEOUT]
  /\ ElvAvpipe.udp_thread_func
       (map (fun p => (1, p)) pkts ++ (0, pkt) :: more)
     = (pkts, true).
Proof.
  intros Ht.
  assert (Hrun : TsRecorder.readUdp
       (replicate k TsRecorder.timed_out ++ map TsRecorder.datagram ds
          ++ TsRecorder.timed_out :: rest)
     = (TsRecorder.Returned (Some TsRecorder.EAV_IO_TIMEOUT), ds)).
  { unfold TsRecorder.readUdp.
    rewrite TsRecorderFacts.timeouts_before_data.
    rewrite TsRecorderFacts.datagrams_written by lia.
    rewrite Z.add_0_l.
    rewrite TsRecorderFacts.timeout_after_data by lia.
    cbn [fst snd]. by rewrite app_nil_r. }
  split; [apply TsRecorderFacts.only_timeouts|].
  split; [unfold TsRecorder.readUdp; by rewrite TsRecorderFacts.only_timeouts|].
  split; [exact Hrun|].
  split; [by rewrite Hrun|].
  split; [by rewrite Hrun|].
  apply ElvAvpipeFacts.udp_thread_stops_at_timeout.
Qed.

Lemma readUdp_on_timeout_witness :
  let ds := [[x47; x40; x00]; [x47]] in
  let p := ElvAvpipe.mkPacket [x47] 1 in
  TsRecorder.readUdp (replicate 2 TsRecorder.timed_out)
    = (TsRecorder.Receiving, [])
  /\ TsRecorder.writer_closed
       (TsRecorder.readUdp (replicate 2 TsRecorder.timed_out)).1 = false
  /\ TsRecorder.readUdp
       (replicate 2 TsRecorder.timed_out ++ map TsRecorder.datagram ds
          ++ TsRecorder.timed_out :: [TsRecorder.datagram [x47]])
     = (TsRecorder.Returned (Some TsRecorder.EAV_IO_TIMEOUT), ds)
  /\ TsRecorder.writer_closed
       (TsRecorder.readUdp
          (replicate 2 TsRecorder.timed_out ++ map TsRecorder.datagram ds
             ++ TsRecorder.timed_out :: [TsRecorder.datagram [x47]])).1 = true
  /\ TsRecorder.ErrChannel_after
       (TsRecorder.readUdp
          (replicate 2 TsRecorder.timed_out ++ map TsRecorder.datagram ds
             ++ TsRecorder.timed_out :: [TsRecorder.datagram [x47]])).1
     = [TsRecorder.EAV_IO_TIMEOUT]
  /\ ElvAvpipe.udp_thread_func
       (map (fun p => (1, p)) [p] ++ (0, p) :: [(1, p)])
     = ([p], true).
Proof.
  apply (readUdp_on_timeout 2 [[x47; x40; x00]; [x47]]
           [TsRecorder.datagram [x47]]
           [ElvAvpipe.mkPacket [x47] 1] (ElvAvpipe.mkPacket [x47] 1)
           [(1, ElvAvpipe.mkPacket [x47] 1)]).
  vm_compute. split; reflexivity.
Defined.

(** C6, the claim refuted: after one datagram of one byte the deadline
    passes, and [readUdp] returns an error, not nil, which reaches the
    error channel; and the reader thread of the test program, given a
    timeout before any packet, returns instead of waiting on. *)
Lemma timeout_after_data_is_an_error :
  TsRecorder.readUdp [TsRecorder.datagram [x47]; TsRecorder.timed_out]
    = (TsRecorder.Returned (Some TsRecorder.EAV_IO_TIMEOUT), [[x47]])
  /\ TsRecorder.readUdp [TsRecorder.datagram [x47]; TsRecorder.timed_out]
     <> (TsRecorder.Returned None, [[x47]])
  /\ ElvAvpipe.udp_thread_func
       [(0, ElvAvpipe.mkPacket [] 0); (1, ElvAvpipe.mkPacket [x47] 1)]
     = ([], true).
Proof. split; [|split]; vm_compute; (reflexivity || discriminate). Qed.



(** The reads of that run, one by one: the first datagram goes out in
    two parts, the byte behind it in the buffer is never copied, the
    empty datagram costs a read of its own. *)
Example reads_of_a_run :
  ElvAvpipe.read_all
    (ElvAvpipe.udp_input
       [ElvAvpipe.mkPacket [x47; x40; x00; xff] 3; ElvAvpipe.mkPacket [x11] 1;
        ElvAvpipe.mkPacket [xff; xff] 0; ElvAvpipe.mkPacket [x47; x1f] 2])
    [2; 2; 1; 17; 4096; 1]
  = Done (ElvAvpipe.mkIoctx (Some []) None 0 6 6,
          [([x47; x40], 2); ([x00], 1); ([x11], 1); ([], 0); ([x47; x1f], 2);
           ([], -1)]).
Proof. vm_compute. reflexivity. Qed.




